(** * pdf-utilities-mcp: the PDF engine (pdf-tools.js) and the MCP tool
      dispatcher (mcp-server/index.js), embedded and verified.

    Conventions of the embedding.
    - JavaScript strings are [string]s of ASCII code units; the white space
      that [trim] and [parseInt] skip is the ASCII part of the ECMAScript
      WhiteSpace and LineTerminator classes.
    - JavaScript numbers that the engine handles are page numbers and page
      counts: they are integers, modelled exactly in [Z]; the one
      non-integer that the code can produce, [NaN] out of [parseInt], is
      [None] in [option Z]. Binary64 arithmetic is exact below 2^53, and
      that is where the embedding speaks for the code: a statement that
      needs a loop over written numbers to end carries the bound as a
      hypothesis ([finiteRange]).
    - Storage is a finite map from paths to file contents, and a write to
      any path succeeds (the directory is there and is writable); [pdf-lib]
      and the file system are collaborators whose contract is taken as
      given.
    - A method that can [throw] is a function from the storage to an
      outcome ([Ok] or [Throw]) and the storage it leaves behind. *)

From Stdlib Require Import ZArith Ascii String List Bool Lia.
From Stdlib Require Import DecimalString DecimalZ DecimalPos DecimalFacts.
From stdpp Require Import base option list list_numbers strings gmap fin_maps.

Local Open Scope Z_scope.

(* ===================================================================== *)
(** * The fragment of the JavaScript runtime that the engine relies on    *)
(* ===================================================================== *)

Module JS.

(** ** Characters *)

(** [StrWhiteSpaceChar], ASCII part: TAB, LF, VT, FF, CR, SP. *)
Definition isWhiteSpace (c : ascii) : bool :=
  match N_of_ascii c with
  | 9 | 10 | 11 | 12 | 13 | 32 => true
  | _ => false
  end%N.

(** The value of [c] as a digit of the given radix (10 or 16), if it is one. *)
Definition digitValue (radix : Z) (c : ascii) : option Z :=
  let n := Z.of_N (N_of_ascii c) in
  if (48 <=? n) && (n <=? 57) then Some (n - 48)
  else if (radix =? 16) && (97 <=? n) && (n <=? 102) then Some (n - 87)
  else if (radix =? 16) && (65 <=? n) && (n <=? 70) then Some (n - 55)
  else None.

(** ** String.prototype methods *)

(** [s.includes(c)] for a one-character needle. *)
Fixpoint includes (c : ascii) (s : string) : bool :=
  match s with
  | EmptyString => false
  | String d r => Ascii.eqb d c || includes c r
  end.

(** [s.split(sep)] for a one-character separator: the pieces between the
    occurrences of [sep], empty pieces included; [""] splits into [[""]]. *)
Fixpoint split (sep : ascii) (s : string) : list string :=
  match s with
  | EmptyString => [EmptyString]
  | String c r =>
      if Ascii.eqb c sep then EmptyString :: split sep r
      else match split sep r with
           | h :: t => String c h :: t
           | [] => [String c EmptyString]
           end
  end.

Fixpoint trimStart (s : string) : string :=
  match s with
  | EmptyString => EmptyString
  | String c r => if isWhiteSpace c then trimStart r else s
  end.

Fixpoint trimEnd (s : string) : string :=
  match s with
  | EmptyString => EmptyString
  | String c r =>
      match trimEnd r with
      | EmptyString => if isWhiteSpace c then EmptyString else String c EmptyString
      | r' => String c r'
      end
  end.

(** [s.trim()] *)
Definition trim (s : string) : string := trimEnd (trimStart s).

(** ** parseInt *)

(** The longest prefix of [s] made of digits of the radix, read left to
    right into the accumulator; [seen] records whether a digit was read. *)
Fixpoint parseDigits (radix : Z) (s : string) (seen : bool) (acc : Z) : option Z :=
  match s with
  | EmptyString => if seen then Some acc else None
  | String c r =>
      match digitValue radix c with
      | Some d => parseDigits radix r true (radix * acc + d)
      | None => if seen then Some acc else None
      end
  end.

(** [parseInt(s)] with no radix argument (ECMA-262, 19.2.5): leading white
    space is skipped, then an optional sign, then an optional [0x]/[0X]
    prefix selecting radix 16; the longest run of digits is the value and
    an empty run gives [NaN] ([None]). *)
Definition parseInt (s : string) : option Z :=
  let s1 := trimStart s in
  let '(sign, s2) :=
    match s1 with
    | String "-"%char r => (-1, r)
    | String "+"%char r => (1, r)
    | _ => (1, s1)
    end in
  let '(radix, s3) :=
    match s2 with
    | String "0"%char (String "x"%char r) => (16, r)
    | String "0"%char (String "X"%char r) => (16, r)
    | _ => (10, s2)
    end in
  match parseDigits radix s3 false 0 with
  | Some n => Some (sign * n)
  | None => None
  end.

(** ** Number to string *)

(** [String(n)] and the template-literal conversion of an integer: the
    decimal numeral, with a leading minus sign when negative. *)
Definition toString (n : Z) : string := NilZero.string_of_int (Z.to_int n).

End JS.

(* ===================================================================== *)
(** * Values, exceptions and effectful computations                       *)
(* ===================================================================== *)

(** A JavaScript value as it travels through the tool protocol: what
    [JSON.parse] can produce, and [undefined]. An object keeps its
    properties in insertion order. *)
#[warnings="-register-all"]
Inductive value : Type :=
  | VUndefined
  | VNull
  | VBool (b : bool)
  | VNum (n : Z)
  | VStr (s : string)
  | VArr (items : list value)
  | VObj (props : list (string * value)).

(** [ToBoolean]: the falsy values are [undefined], [null], [false], [0]
    and the empty string. *)
Definition toBoolean (v : value) : bool :=
  match v with
  | VUndefined | VNull => false
  | VBool b => b
  | VNum n => negb (n =? 0)
  | VStr s => negb (String.eqb s "")
  | VArr _ | VObj _ => true
  end.

Fixpoint lookupProp (k : string) (props : list (string * value)) : value :=
  match props with
  | [] => VUndefined
  | (k', v) :: rest => if String.eqb k' k then v else lookupProp k rest
  end.

(** [v.k] on a value that is not [undefined] or [null] (property access on
    those raises, and every access in the handler is behind the [!args]
    guard): an object yields the property or [undefined], and none of the
    property names used by the handler exists on a primitive or an array. *)
Definition getProp (v : value) (k : string) : value :=
  match v with
  | VObj props => lookupProp k props
  | _ => VUndefined
  end.

(** What a [throw] carries. [Error] is [new Error(message)] raised by the
    code of this repository; [Fault] is an [Error] instance raised inside a
    collaborator or by the runtime (pdf-lib, the file system, a TypeError);
    [Thrown] is a value that is not an [Error] instance, kept with the
    string that [String(...)] renders it to. *)
Inductive exn : Type :=
  | Error (message : string)
  | Fault (message : string)
  | Thrown (rendered : string).

Inductive Outcome (A : Type) : Type :=
  | Ok (a : A)
  | Throw (e : exn).
Arguments Ok {A} a.
Arguments Throw {A} e.

(** A computation over a store [S]: the outcome and the store left behind. *)
Definition M (S A : Type) : Type := S → Outcome A * S.

Definition ret {S A} (a : A) : M S A := λ s, (Ok a, s).
Definition throw {S A} (e : exn) : M S A := λ s, (Throw e, s).
Definition bind {S A B} (m : M S A) (k : A → M S B) : M S B :=
  λ s, match m s with
       | (Ok a, s') => k a s'
       | (Throw e, s') => (Throw e, s')
       end.
(** [try { body } catch (error) { handler }] *)
Definition try_catch {S A} (body : M S A) (handler : exn → M S A) : M S A :=
  λ s, match body s with
       | (Ok a, s') => (Ok a, s')
       | (Throw e, s') => handler e s'
       end.

Declare Scope js_scope.
Delimit Scope js_scope with js.
Notation "'let!' x ':=' m 'in' k" := (bind m (λ x, k))
  (at level 10, x name, m at level 100, k at level 200) : js_scope.
Notation "m ';;' k" := (bind m (λ _, k))
  (at level 100, k at level 200, right associativity) : js_scope.

(* ===================================================================== *)
(** * pdf-lib: the document handle and the codec boundary                 *)
(* ===================================================================== *)

Section PDFLib.
Context {Page : Type}.

(** A parsed document: its pages in order and its information
    dictionary. Dates are instants in milliseconds. *)
Record PDFDocument : Type := mkPDFDocument {
  Pages : list Page;
  Title : option string;
  Author : option string;
  Subject : option string;
  Keywords : option string;
  Creator : option string;
  Producer : option string;
  CreationDate : option Z;
  ModDate : option Z
}.

(** [PDFDocument.create()]: no pages and no title, author, subject or
    keywords. pdf-lib also stamps a fresh document with its own creator,
    producer and dates; these stamps are left out, so the creator, the
    producer and the dates of a created document mean something here only
    once the engine has set them itself. *)
Definition create : PDFDocument :=
  mkPDFDocument [] None None None None None None None None.

Definition getPages (d : PDFDocument) : list Page := Pages d.
Definition getPageCount (d : PDFDocument) : Z := Z.of_nat (length (Pages d)).

(** [doc.getPageCount()] once [doc.save()] has run on the handle: [save]
    adds a blank page to a document that has none before it serialises
    it, and the page stays on the handle. *)
Definition getPageCountAfterSave (d : PDFDocument) : Z :=
  if getPageCount d =? 0 then 1 else getPageCount d.

Definition addPage (d : PDFDocument) (p : Page) : PDFDocument :=
  mkPDFDocument (Pages d ++ [p]) (Title d) (Author d) (Subject d) (Keywords d)
    (Creator d) (Producer d) (CreationDate d) (ModDate d).
Definition setTitle (d : PDFDocument) (t : string) : PDFDocument :=
  mkPDFDocument (Pages d) (Some t) (Author d) (Subject d) (Keywords d)
    (Creator d) (Producer d) (CreationDate d) (ModDate d).
Definition setAuthor (d : PDFDocument) (a : string) : PDFDocument :=
  mkPDFDocument (Pages d) (Title d) (Some a) (Subject d) (Keywords d)
    (Creator d) (Producer d) (CreationDate d) (ModDate d).
Definition setSubject (d : PDFDocument) (s : string) : PDFDocument :=
  mkPDFDocument (Pages d) (Title d) (Author d) (Some s) (Keywords d)
    (Creator d) (Producer d) (CreationDate d) (ModDate d).
(** [setKeywords(list)] stores the keywords joined by single spaces. *)
Definition setKeywords (d : PDFDocument) (ks : list string) : PDFDocument :=
  mkPDFDocument (Pages d) (Title d) (Author d) (Subject d)
    (Some (String.concat " " ks))
    (Creator d) (Producer d) (CreationDate d) (ModDate d).
Definition setCreator (d : PDFDocument) (c : string) : PDFDocument :=
  mkPDFDocument (Pages d) (Title d) (Author d) (Subject d) (Keywords d)
    (Some c) (Producer d) (CreationDate d) (ModDate d).
Definition setProducer (d : PDFDocument) (p : string) : PDFDocument :=
  mkPDFDocument (Pages d) (Title d) (Author d) (Subject d) (Keywords d)
    (Creator d) (Some p) (CreationDate d) (ModDate d).
Definition setCreationDate (d : PDFDocument) (t : Z) : PDFDocument :=
  mkPDFDocument (Pages d) (Title d) (Author d) (Subject d) (Keywords d)
    (Creator d) (Producer d) (Some t) (ModDate d).
Definition setModificationDate (d : PDFDocument) (t : Z) : PDFDocument :=
  mkPDFDocument (Pages d) (Title d) (Author d) (Subject d) (Keywords d)
    (Creator d) (Producer d) (CreationDate d) (Some t).

(** The page of [d] at a 0-based index. *)
Definition pageAt (d : PDFDocument) (i : Z) : option Page :=
  if 0 <=? i then Pages d !! Z.to_nat i else None.

(** [dest.copyPages(src, indices)]: fresh copies of the pages of [src] at
    the given 0-based indices, in that order; an index that is not a
    page of [src] makes pdf-lib raise. Nothing is added to [dest]. *)
Fixpoint copyPages {S} (src : PDFDocument) (indices : list Z) : M S (list Page) :=
  match indices with
  | [] => ret []
  | i :: rest =>
      match pageAt src i with
      | Some p => bind (copyPages src rest) (λ ps, ret (p :: ps))
      | None => throw (Fault "Cannot read properties of undefined (reading 'node')")
      end
  end.

End PDFLib.
Arguments PDFDocument Page : clear implicits.

(** The codec boundary: [PDFDocument.load(bytes)], which raises on bytes
    that are not a PDF, and [doc.save()]. *)
Class Codec (Page bytes : Type) : Type := {
  load : bytes → option (PDFDocument Page);
  save : PDFDocument Page → bytes
}.

(* ===================================================================== *)
(** * pdf-tools.js: class PDFTools                                        *)
(* ===================================================================== *)

(** The [metadata] argument of [updatePDFMetadata]: every field optional. *)
Record Metadata : Type := mkMetadata {
  title : option string;
  author : option string;
  subject : option string;
  keywords : option string
}.

(** ** parsePageRange *)

(** The body shared by both branches: push the 0-based index of [i] when
    [i] is a page of the document. *)
Definition pushPage (totalPages : Z) (pages : list Z) (i : Z) : list Z :=
  if (1 <=? i) && (i <=? totalPages) then pages ++ [i - 1] else pages.

(** [for (let i = start; i <= end; i++)]: no iteration when either bound is
    [NaN], otherwise one iteration for each integer from [start] to [end].
    This is the loop of the code as long as [end] is below 2^53; from
    there on the binary64 counter of the code stops advancing. *)
Definition rangeLoop (totalPages : Z) (start end_ : option Z) (pages : list Z) : list Z :=
  match start, end_ with
  | Some a, Some b => foldl (pushPage totalPages) pages (seqZ a (b - a + 1))
  | _, _ => pages
  end.

(** One iteration of [for (const part of parts)]. The destructuring
    [[start, end]] takes the first two pieces of [part.split('-')]. *)
Definition parsePart (totalPages : Z) (pages : list Z) (part : string) : list Z :=
  if JS.includes "-" part then
    match map (λ s, JS.parseInt (JS.trim s)) (JS.split "-" part) with
    | start :: end_ :: _ => rangeLoop totalPages start end_ pages
    | _ => pages
    end
  else
    match JS.parseInt (JS.trim part) with
    | Some pageNum => pushPage totalPages pages pageNum
    | None => pages
    end.

Definition parsePageRange (range : string) (totalPages : Z) : list Z :=
  let parts := JS.split "," range in
  foldl (parsePart totalPages) [] parts.

(** The methods that assemble documents and edit metadata, at the types
    declared in [pdf-tools.d.ts]. [readPDF], [getPDFInfo] and [createPDF]
    depend on text extraction and font metrics and are not embedded. *)
Section PDFTools.
Context {Page bytes : Type} `{!Codec Page bytes}.
(** The instant that [new Date()] returns during the call. *)
Variable now : Z.

Local Abbreviation FS := (gmap string bytes).
Local Open Scope js_scope.

(** ** The file system *)

Definition existsSync (path : string) : M FS bool :=
  λ fs, (Ok (bool_decide (is_Some (fs !! path))), fs).

Definition readFileSync (path : string) : M FS bytes :=
  λ fs, match fs !! path with
        | Some b => (Ok b, fs)
        | None => (Throw (Fault ("ENOENT: no such file or directory, open '" +:+ path +:+ "'")), fs)
        end.

(** Storage is a flat map from paths to contents, without directories or
    permissions: every path can be written and the write never raises.
    This is the write of the code when the directory of [path] is there
    and writable; where it is not, the code raises and the embedding is
    silent. *)
Definition writeFileSync (path : string) (data : bytes) : M FS unit :=
  λ fs, (Ok tt, <[path := data]> fs).

(** [await PDFDocument.load(bytes)] *)
Definition PDFDocument_load (b : bytes) : M FS (PDFDocument Page) :=
  match load b with
  | Some d => ret d
  | None => throw (Fault "Failed to parse PDF document")
  end.

(** ** mergePDFs *)

(** [for (const filePath of filePaths)] *)
Fixpoint mergeLoop (filePaths : list string) (mergedPdf : PDFDocument Page)
  : M FS (PDFDocument Page) :=
  match filePaths with
  | [] => ret mergedPdf
  | filePath :: rest =>
      let! found := existsSync filePath in
      if negb found then throw (Error ("File not found: " +:+ filePath)) else
      let! pdfBytes := readFileSync filePath in
      let! pdf := PDFDocument_load pdfBytes in
      let! copiedPages :=
        copyPages pdf (imap (λ i _, Z.of_nat i) (getPages pdf)) in
      mergeLoop rest (foldl addPage mergedPdf copiedPages)
  end.

Definition mergePDFs (filePaths : list string) (outputPath : string) : M FS value :=
  if (length filePaths =? 0)%nat then
    throw (Error "No PDF files provided for merging")
  else
    let mergedPdf := create in
    let! mergedPdf := mergeLoop filePaths mergedPdf in
    let mergedPdf := setCreator mergedPdf "PDF Utilities MCP" in
    let mergedPdf := setProducer mergedPdf "pdf-lib" in
    let mergedPdf := setModificationDate mergedPdf now in
    let mergedPdfBytes := save mergedPdf in
    writeFileSync outputPath mergedPdfBytes ;;
    ret (VObj [("success", VBool true); ("path", VStr outputPath);
               ("pages", VNum (getPageCountAfterSave mergedPdf))]).

(** ** splitPDF *)

Definition splitPDF (filePath pageRange outputPath : string) : M FS value :=
  let! found := existsSync filePath in
  if negb found then throw (Error ("File not found: " +:+ filePath)) else
  let! pdfBytes := readFileSync filePath in
  let! pdfDoc := PDFDocument_load pdfBytes in
  let newPdf := create in
  let pages := parsePageRange pageRange (getPageCount pdfDoc) in
  let! copiedPages := copyPages pdfDoc pages in
  let newPdf := foldl addPage newPdf copiedPages in
  let newPdf := setCreator newPdf "PDF Utilities MCP" in
  let newPdf := setProducer newPdf "pdf-lib" in
  let newPdf := setCreationDate newPdf now in
  let newPdfBytes := save newPdf in
  writeFileSync outputPath newPdfBytes ;;
  ret (VObj [("success", VBool true); ("path", VStr outputPath);
             ("pages", VNum (getPageCountAfterSave newPdf))]).

(** ** updatePDFMetadata *)

(** [if (field) pdfDoc.setField(field)]: the setter runs when the
    property is a non-empty string; [undefined] and [""] are falsy. *)
Definition ifTruthy (field : option string)
    (setter : string → PDFDocument Page) (pdfDoc : PDFDocument Page)
  : PDFDocument Page :=
  match field with
  | Some s => if String.eqb s "" then pdfDoc else setter s
  | None => pdfDoc
  end.

(** The four guarded setters and the unconditional timestamp. *)
Definition applyMetadata (pdfDoc : PDFDocument Page) (metadata : Metadata)
  : PDFDocument Page :=
  let pdfDoc := ifTruthy (title metadata) (setTitle pdfDoc) pdfDoc in
  let pdfDoc := ifTruthy (author metadata) (setAuthor pdfDoc) pdfDoc in
  let pdfDoc := ifTruthy (subject metadata) (setSubject pdfDoc) pdfDoc in
  let pdfDoc := ifTruthy (keywords metadata)
                  (λ k, setKeywords pdfDoc [k]) pdfDoc in
  setModificationDate pdfDoc now.

Definition updatePDFMetadata (filePath : string) (metadata : Metadata)
    (outputPath : option string) : M FS value :=
  let! found := existsSync filePath in
  if negb found then throw (Error ("File not found: " +:+ filePath)) else
  let! pdfBytes := readFileSync filePath in
  let! pdfDoc := PDFDocument_load pdfBytes in
  let pdfDoc := applyMetadata pdfDoc metadata in
  let modifiedPdfBytes := save pdfDoc in
  (* [outputPath || filePath]: an empty output path is falsy as well *)
  let savePath := match outputPath with
                  | Some p => if String.eqb p "" then filePath else p
                  | None => filePath
                  end in
  writeFileSync savePath modifiedPdfBytes ;;
  ret (VObj [("success", VBool true); ("path", VStr savePath)]).

(** ** extractPages *)

(** The name of the file written for a page. *)
Definition pageFile (outputDir prefix : string) (pageNum : Z) : string :=
  outputDir +:+ "/" +:+ prefix +:+ "_" +:+ JS.toString pageNum +:+ ".pdf".

(** [for (const pageNum of pages)], with the list [extractedFiles] that
    the iterations push to. *)
Fixpoint extractLoop (pdfDoc : PDFDocument Page) (outputDir prefix : string)
    (pages : list Z) (extractedFiles : list string) : M FS (list string) :=
  match pages with
  | [] => ret extractedFiles
  | pageNum :: rest =>
      if (pageNum <? 1) || (pageNum >? getPageCount pdfDoc) then
        throw (Error ("Invalid page number: " +:+ JS.toString pageNum))
      else
        let newPdf := create in
        let! copied := copyPages pdfDoc [pageNum - 1] in
        match copied with
        | copiedPage :: _ =>
            let newPdf := addPage newPdf copiedPage in
            let outputPath := pageFile outputDir prefix pageNum in
            let newPdfBytes := save newPdf in
            writeFileSync outputPath newPdfBytes ;;
            extractLoop pdfDoc outputDir prefix rest (extractedFiles ++ [outputPath])
        | [] => throw (Fault "Cannot read properties of undefined (reading 'ref')")
        end
  end.

(** [prefix] is [None] when the caller leaves it out: the default
    parameter value ['page'] applies. *)
Definition extractPages (filePath : string) (pages : list Z) (outputDir : string)
    (prefix : option string) : M FS value :=
  let prefix := default "page" prefix in
  let! found := existsSync filePath in
  if negb found then throw (Error ("File not found: " +:+ filePath)) else
  let! pdfBytes := readFileSync filePath in
  let! pdfDoc := PDFDocument_load pdfBytes in
  let extractedFiles := [] in
  let! extractedFiles := extractLoop pdfDoc outputDir prefix pages extractedFiles in
  ret (VObj [("success", VBool true); ("files", VArr (map VStr extractedFiles))]).

End PDFTools.

(** ** readPDF and getPDFInfo *)

(** What [pdf-parse] resolves to: the page count, the information
    dictionary (an object, or [undefined] when the file has none) and the
    text of the whole document. *)
Record PdfData : Type := mkPdfData {
  numpages : Z;
  info : value;
  text : string
}.

(** The text-extraction boundary: [pdfParse(buffer)], which rejects on
    bytes it cannot read, and the size in bytes that [statSync] reports. *)
Class TextExtractor (bytes : Type) : Type := {
  pdfParse : bytes → option PdfData;
  byteSize : bytes → Z
}.

(** The line feed of ['\n']. *)
Definition LF : ascii := "010"%char.

Section PDFToolsReading.
Context {Page bytes : Type} `{!Codec Page bytes} `{!TextExtractor bytes}.

Local Abbreviation FS := (gmap string bytes).
Local Open Scope js_scope.

(** [await pdfParse(dataBuffer)] *)
Definition pdfParse_await (dataBuffer : bytes) : M FS PdfData :=
  match pdfParse dataBuffer with
  | Some data => ret data
  | None => throw (Fault "Invalid PDF structure")
  end.

(** [statSync(filePath).size] *)
Definition statSync_size (path : string) : M FS Z :=
  λ fs, match fs !! path with
        | Some b => (Ok (byteSize b), fs)
        | None => (Throw (Fault ("ENOENT: no such file or directory, stat '" +:+ path +:+ "'")), fs)
        end.

(** The object literal that both methods build out of the parsed data;
    [data.info?.Title] is [undefined] when there is no dictionary or no
    such entry. *)
Definition infoObject (data : PdfData) (size : Z) (filePath : string) : value :=
  VObj [("pages", VNum (numpages data));
        ("title", getProp (info data) "Title");
        ("author", getProp (info data) "Author");
        ("subject", getProp (info data) "Subject");
        ("creator", getProp (info data) "Creator");
        ("producer", getProp (info data) "Producer");
        ("creationDate", getProp (info data) "CreationDate");
        ("modificationDate", getProp (info data) "ModDate");
        ("fileSize", VNum size);
        ("filePath", VStr filePath)].

(** [pageRange] is [None] when the caller leaves it out. *)
Definition readPDF (filePath : string) (pageRange : option string) : M FS value :=
  let! found := existsSync filePath in
  if negb found then throw (Error ("File not found: " +:+ filePath)) else
  let! dataBuffer := readFileSync filePath in
  let! data := pdfParse_await dataBuffer in
  let! size := statSync_size filePath in
  let info := infoObject data size filePath in
  let text := text data in
  let! text :=
    match pageRange with
    | Some range =>
        if String.eqb range "" then ret text else
        let! pdfDoc := PDFDocument_load (Page := Page) dataBuffer in
        let pages := parsePageRange range (getPageCount pdfDoc) in
        ret ("[Extracted pages " +:+ range +:+ "]" +:+ String LF text)
    | None => ret text
    end in
  ret (VObj [("text", VStr text); ("pages", VNum (numpages data)); ("info", info)]).

Definition getPDFInfo (filePath : string) : M FS value :=
  let! found := existsSync filePath in
  if negb found then throw (Error ("File not found: " +:+ filePath)) else
  let! dataBuffer := readFileSync filePath in
  let! data := pdfParse_await dataBuffer in
  let! size := statSync_size filePath in
  ret (infoObject data size filePath).

End PDFToolsReading.

(** ** wrapText *)

Section WrapText.
(** [font.widthOfTextAtSize(line, fontSize) > maxWidth], for the font, the
    size and the width of the call. *)
Variable tooWide : string → bool.

Definition nonEmpty (s : string) : bool := negb (String.eqb s "").

(** One iteration of [for (const word of words)], on the list of lines
    and [currentLine]. *)
Definition wrapWord (state : list string * string) (word : string)
  : list string * string :=
  let '(lines, currentLine) := state in
  let testLine :=
    if nonEmpty currentLine then currentLine +:+ " " +:+ word else word in
  if tooWide testLine && nonEmpty currentLine
  then (lines ++ [currentLine], word)
  else (lines, testLine).

(** One iteration of [for (const paragraph of paragraphs)]. *)
Definition wrapParagraph (lines : list string) (paragraph : string) : list string :=
  if String.eqb (JS.trim paragraph) "" then lines ++ [""]
  else
    let words := JS.split " " paragraph in
    let '(lines, currentLine) := foldl wrapWord (lines, "") words in
    if nonEmpty currentLine then lines ++ [currentLine] else lines.

Definition wrapText (text : string) : list string :=
  let paragraphs := JS.split LF text in
  foldl wrapParagraph [] paragraphs.

End WrapText.


(* ===================================================================== *)
(** * mcp-server/index.js: the CallTool request handler                   *)
(* ===================================================================== *)

Module Server.

(** [this.pdfTools] as the handler uses it: the arguments are read out of
    the JSON argument record and handed over unchecked, and whatever the
    method returns is serialised. [S] is the state the engine works on. *)
Record PDFTools (S : Type) : Type := {
  readPDF : value → value → M S value;
  getPDFInfo : value → M S value;
  createPDF : value → value → value → M S value;
  mergePDFs : value → value → M S value;
  splitPDF : value → value → value → M S value;
  updatePDFMetadata : value → value → value → M S value;
  extractPages : value → value → value → value → M S value
}.
Arguments readPDF {S}.
Arguments getPDFInfo {S}.
Arguments createPDF {S}.
Arguments mergePDFs {S}.
Arguments splitPDF {S}.
Arguments updatePDFMetadata {S}.
Arguments extractPages {S}.

(** [request.params] of a CallTool request; [arguments] is [VUndefined]
    when the caller leaves it out. *)
Record CallToolParams : Type := {
  name : string;
  arguments : value
}.

(** An item of [content]. [text] holds the value that the handler passes
    to [JSON.stringify(_, null, 2)]; the serialisation is not modelled. *)
Record TextContent : Type := {
  type : string;
  text : value
}.

(** The handler's return value; [isError] is [None] where the object
    literal has no such property. *)
Record CallToolResult : Type := {
  content : list TextContent;
  isError : option bool
}.

(** The object returned at the end of every [case]. *)
Definition textResult (result : value) : CallToolResult :=
  {| content := [ {| type := "text"; text := result |} ]; isError := None |}.

(** [error instanceof Error ? error.message : String(error)] *)
Definition errorMessage (error : exn) : string :=
  match error with
  | Error m => m
  | Fault m => m
  | Thrown r => r
  end.

(** The object returned by the [catch] block. *)
Definition errorResult (errorMessage : string) : CallToolResult :=
  {| content := [ {| type := "text";
                     text := VObj [("error", VStr errorMessage);
                                   ("success", VBool false)] |} ];
     isError := Some true |}.

Section Handler.
Context {S : Type} (pdfTools : PDFTools S).
Local Open Scope js_scope.

(** The [switch (name)]: the engine call of the matching [case], or
    [None] for [default]. *)
Definition engineCall (name : string) (args : value) : option (M S value) :=
  if String.eqb name "read_pdf" then
    Some (readPDF pdfTools (getProp args "filePath") (getProp args "pageRange"))
  else if String.eqb name "get_pdf_info" then
    Some (getPDFInfo pdfTools (getProp args "filePath"))
  else if String.eqb name "create_pdf" then
    Some (createPDF pdfTools (getProp args "content") (getProp args "outputPath")
            (getProp args "options"))
  else if String.eqb name "merge_pdfs" then
    Some (mergePDFs pdfTools (getProp args "filePaths") (getProp args "outputPath"))
  else if String.eqb name "split_pdf" then
    Some (splitPDF pdfTools (getProp args "filePath") (getProp args "pageRange")
            (getProp args "outputPath"))
  else if String.eqb name "update_pdf_metadata" then
    Some (updatePDFMetadata pdfTools (getProp args "filePath")
            (getProp args "metadata") (getProp args "outputPath"))
  else if String.eqb name "extract_pages" then
    Some (extractPages pdfTools (getProp args "filePath") (getProp args "pages")
            (getProp args "outputDir") (getProp args "prefix"))
  else None.

(** The handler registered for [CallToolRequestSchema]. *)
Definition callTool (params : CallToolParams) : M S CallToolResult :=
  try_catch
    (let name := name params in
     let args := arguments params in
     if negb (toBoolean args) then
       throw (Error "Missing arguments for tool call")
     else
       match engineCall name args with
       | Some call =>
           let! result := call in
           ret (textResult result)
       | None => throw (Error ("Unknown tool: " +:+ name))
       end)
    (λ error, ret (errorResult (errorMessage error))).

End Handler.

(** The declared catalogue (the ListTools handler): each operation with
    its [required] fields. *)
Definition catalogue : list (string * list string) :=
  [ ("read_pdf", ["filePath"]);
    ("get_pdf_info", ["filePath"]);
    ("create_pdf", ["content"; "outputPath"]);
    ("merge_pdfs", ["filePaths"; "outputPath"]);
    ("split_pdf", ["filePath"; "pageRange"; "outputPath"]);
    ("update_pdf_metadata", ["filePath"; "metadata"]);
    ("extract_pages", ["filePath"; "pages"; "outputDir"]) ].

(** An engine that only records how it is called: the state is the log of
    the calls made, each with the method name and the arguments received,
    and every method returns [undefined]. *)
Definition recorded (method : string) (args : list value)
  : M (list (string * list value)) value :=
  λ log, (Ok VUndefined, log ++ [(method, args)]).

Definition recorder : PDFTools (list (string * list value)) :=
  {| readPDF := λ a b, recorded "readPDF" [a; b];
     getPDFInfo := λ a, recorded "getPDFInfo" [a];
     createPDF := λ a b c, recorded "createPDF" [a; b; c];
     mergePDFs := λ a b, recorded "mergePDFs" [a; b];
     splitPDF := λ a b c, recorded "splitPDF" [a; b; c];
     updatePDFMetadata := λ a b c, recorded "updatePDFMetadata" [a; b; c];
     extractPages := λ a b c d, recorded "extractPages" [a; b; c; d] |}.

End Server.

(* ===================================================================== *)
(** * The page-range grammar of the specification                         *)
(* ===================================================================== *)

(** The syntax of section 4.1, stated on its own terms: a comma-separated
    list of tokens, each a decimal integer or a hyphen-joined pair, with
    white space allowed around tokens and around the hyphen. Each relation
    ties a piece of text to the 1-based page numbers it denotes. *)
Module Grammar.

Definition isDigit (c : ascii) : bool :=
  let n := Z.of_N (N_of_ascii c) in (48 <=? n) && (n <=? 57).

Fixpoint allChars (P : ascii → bool) (s : string) : bool :=
  match s with
  | EmptyString => true
  | String c r => P c && allChars P r
  end.

(** A (possibly empty) run of white space. *)
Definition blank (s : string) : Prop := allChars JS.isWhiteSpace s = true.

(** The number written by a run of decimal digits, most significant
    digit first, continuing from [acc]. *)
Fixpoint decimalValue (s : string) (acc : Z) : Z :=
  match s with
  | EmptyString => acc
  | String c r => decimalValue r (10 * acc + (Z.of_N (N_of_ascii c) - 48))
  end.

(** [s] is a decimal integer and [n] is its value. *)
Definition numeral (s : string) (n : Z) : Prop :=
  s ≠ EmptyString ∧ allChars isDigit s = true ∧ decimalValue s 0 = n.

(** A token that is valid for a document of [totalPages] pages, and the
    page numbers it selects. *)
Inductive token (totalPages : Z) : string → list Z → Prop :=
  | token_single ws1 s ws2 n :
      blank ws1 → blank ws2 → numeral s n →
      1 ≤ n ≤ totalPages →
      token totalPages (ws1 +:+ s +:+ ws2) [n]
  | token_range ws1 s1 ws2 ws3 s2 ws4 a b :
      blank ws1 → blank ws2 → blank ws3 → blank ws4 →
      numeral s1 a → numeral s2 b →
      1 ≤ a ≤ totalPages → 1 ≤ b ≤ totalPages → a ≤ b →
      token totalPages
        (ws1 +:+ s1 +:+ ws2 +:+ "-" +:+ ws3 +:+ s2 +:+ ws4)
        (seqZ a (b - a + 1)).

(** A valid expression and the page sequence it selects: the selections of
    its tokens, left to right, repeats kept. *)
Inductive expression (totalPages : Z) : string → list Z → Prop :=
  | expression_last t ps :
      token totalPages t ps → expression totalPages t ps
  | expression_more t ps e qs :
      token totalPages t ps → expression totalPages e qs →
      expression totalPages (t +:+ "," +:+ e) (ps ++ qs).

End Grammar.

(* ===================================================================== *)
(** * Vocabulary for statements about storage                             *)
(* ===================================================================== *)

(** [path] holds a file that parses to the document [d]. *)
Definition holds {Page bytes : Type} `{!Codec Page bytes}
    (fs : gmap string bytes) (path : string) (d : PDFDocument Page) : Prop :=
  ∃ b, fs !! path = Some b ∧ load b = Some d.

(** The storage once the one-page document for [pageNum] has been written
    by [extractPages]. *)
Definition writePage {Page bytes : Type} `{!Codec Page bytes}
    (pdfDoc : PDFDocument Page) (outputDir prefix : string)
    (fs : gmap string bytes) (pageNum : Z) : gmap string bytes :=
  match pageAt pdfDoc (pageNum - 1) with
  | Some page => <[pageFile outputDir prefix pageNum := save (addPage create page)]> fs
  | None => fs
  end.

(** The words of a line or paragraph: its non-empty pieces between single
    spaces. *)
Definition wordsOf (s : string) : list string :=
  filter (λ w, w ≠ EmptyString) (JS.split " " s).

(** The second number of a range part, as [parsePageRange] reads it. *)
Definition rangeEnd (part : string) : option Z :=
  if JS.includes "-" part then
    match map (λ s, JS.parseInt (JS.trim s)) (JS.split "-" part) with
    | _ :: end_ :: _ => end_
    | _ => None
    end
  else None.

(** Every range of the expression ends below 2^53, so the counting loop
    of the code, which runs in binary64, comes to an end. *)
Definition finiteRange (range : string) : Prop :=
  Forall (λ part, ∀ b, rangeEnd part = Some b → b < 9007199254740992)
    (JS.split "," range).

(** [needle] occurs in [text]. *)
Definition mentions (needle text : string) : bool :=
  bool_decide (is_Some (String.index 0 needle text)).

(* ===================================================================== *)
(** * A concrete storage to run the engine on                             *)
(* ===================================================================== *)

Module Sample.

(** A stored file is a PDF or something that pdf-lib cannot parse; a page
    is identified by a label. *)
Inductive file : Type :=
  | PDF (d : PDFDocument string)
  | Garbage.

#[export] Instance codec : Codec string file := {|
  load f := match f with PDF d => Some d | Garbage => None end;
  save d := PDF d
|}.

Definition report : PDFDocument string :=
  {| Pages := ["p1"; "p2"; "p3"; "p4"; "p5"; "p6"; "p7"; "p8"; "p9"; "p10"];
     Title := Some "Report"; Author := Some "Ada"; Subject := None;
     Keywords := Some "draft"; Creator := None; Producer := None;
     CreationDate := Some 1000; ModDate := Some 2000 |}.

Definition annex : PDFDocument string :=
  {| Pages := ["a1"; "a2"];
     Title := None; Author := None; Subject := None;
     Keywords := None; Creator := None; Producer := None;
     CreationDate := None; ModDate := None |}.

Definition disk : gmap string file :=
  <["/in/report.pdf" := PDF report]>
    (<["/in/annex.pdf" := PDF annex]>
       (<["/in/notes.txt" := Garbage]> ∅)).

End Sample.

(** A second storage, whose codec does to a document without pages what
    pdf-lib does: [save] gives it a blank page. *)
Module BlankPageSample.

Inductive file : Type :=
  | PDF (d : PDFDocument string)
  | Garbage.

Definition withDefaultPage (d : PDFDocument string) : PDFDocument string :=
  match Pages d with
  | [] => addPage d "blank"
  | _ => d
  end.

#[export] Instance codec : Codec string file := {|
  load f := match f with PDF d => Some d | Garbage => None end;
  save d := PDF (withDefaultPage d)
|}.

(** A document without pages. *)
Definition cover : PDFDocument string :=
  {| Pages := [];
     Title := Some "Cover"; Author := None; Subject := None;
     Keywords := None; Creator := None; Producer := None;
     CreationDate := None; ModDate := None |}.

Definition disk : gmap string file :=
  <["/in/report.pdf" := PDF Sample.report]>
    (<["/in/annex.pdf" := PDF Sample.annex]>
       (<["/in/cover.pdf" := PDF cover]> ∅)).

End BlankPageSample.

(** Text extraction on the sample storage: every PDF reads as three pages
    worth of fixed data and anything else is rejected. *)
Module SampleText.

#[export] Instance extractor : TextExtractor Sample.file := {|
  pdfParse f :=
    match f with
    | Sample.PDF d =>
        Some {| numpages := getPageCount d;
                info := VObj [("Title", VStr "Report"); ("Author", VStr "Ada")];
                text := "one two three" |}
    | Sample.Garbage => None
    end;
  byteSize f := match f with Sample.PDF d => 4096 | Sample.Garbage => 12 end
|}.

(** A width test for [wrapText]: a line is too wide beyond ten characters. *)
Definition tenColumns (line : string) : bool := (10 <? String.length line)%nat.

End SampleText.

(* ===================================================================== *)
(** * Facts about the runtime fragment                                    *)
(* ===================================================================== *)

Module JSFacts.
Import Grammar.

#[local] Arguments String.append !s1 s2 : simpl nomatch.

Lemma append_nil_r (s : string) : s +:+ "" = s.
Proof. induction s; simpl; congruence. Qed.

Lemma append_assoc (a b c : string) : (a +:+ b) +:+ c = a +:+ (b +:+ c).
Proof. induction a; simpl; congruence. Qed.

Lemma includes_app c a b :
  JS.includes c (a +:+ b) = JS.includes c a || JS.includes c b.
Proof. induction a as [|d a IH]; simpl; [done|]. by rewrite IH, orb_assoc. Qed.

Lemma split_app_sep sep a b :
  JS.includes sep a = false →
  JS.split sep (a +:+ String sep b) = a :: JS.split sep b.
Proof.
  induction a as [|c a IH]; simpl.
  - intros _. by rewrite Ascii.eqb_refl.
  - intros [Hc Ha]%orb_false_iff. rewrite Hc, (IH Ha). done.
Qed.

Lemma split_none sep a : JS.includes sep a = false → JS.split sep a = [a].
Proof.
  induction a as [|c a IH]; simpl; [done|].
  intros [Hc Ha]%orb_false_iff. by rewrite Hc, (IH Ha).
Qed.

Lemma allChars_app P a b : allChars P (a +:+ b) = allChars P a && allChars P b.
Proof. induction a as [|c a IH]; simpl; [done|]. by rewrite IH, andb_assoc. Qed.

Lemma allChars_excludes P sep s :
  (∀ c, P c = true → Ascii.eqb c sep = false) →
  allChars P s = true → JS.includes sep s = false.
Proof.
  intros HP. induction s as [|c s IH]; simpl; [done|].
  intros [Hc Hs]%andb_true_iff. by rewrite (HP c Hc), (IH Hs).
Qed.

(** The character classes of the grammar are disjoint from the two
    separators and from each other. *)
Lemma space_not_comma c : JS.isWhiteSpace c = true → Ascii.eqb c "," = false.
Proof. destruct c as [[] [] [] [] [] [] [] []]; done. Qed.
Lemma space_not_hyphen c : JS.isWhiteSpace c = true → Ascii.eqb c "-" = false.
Proof. destruct c as [[] [] [] [] [] [] [] []]; done. Qed.
Lemma digit_not_comma c : isDigit c = true → Ascii.eqb c "," = false.
Proof. destruct c as [[] [] [] [] [] [] [] []]; done. Qed.
Lemma digit_not_hyphen c : isDigit c = true → Ascii.eqb c "-" = false.
Proof. destruct c as [[] [] [] [] [] [] [] []]; done. Qed.
Lemma digit_not_space c : isDigit c = true → JS.isWhiteSpace c = false.
Proof. destruct c as [[] [] [] [] [] [] [] []]; done. Qed.
Lemma digit_value c :
  isDigit c = true → JS.digitValue 10 c = Some (Z.of_N (N_of_ascii c) - 48).
Proof. unfold isDigit, JS.digitValue. by intros ->. Qed.

(** A numeral padded with white space contains neither separator. *)
Lemma padded_no_hyphen ws1 s ws2 :
  blank ws1 → blank ws2 → allChars isDigit s = true →
  JS.includes "-" (ws1 +:+ s +:+ ws2) = false.
Proof.
  intros H1 H2 Hs. rewrite !includes_app.
  rewrite (allChars_excludes _ _ ws1 space_not_hyphen H1).
  rewrite (allChars_excludes _ _ ws2 space_not_hyphen H2).
  by rewrite (allChars_excludes _ _ s digit_not_hyphen Hs).
Qed.

Lemma padded_no_comma ws1 s ws2 :
  blank ws1 → blank ws2 → allChars isDigit s = true →
  JS.includes "," (ws1 +:+ s +:+ ws2) = false.
Proof.
  intros H1 H2 Hs. rewrite !includes_app.
  rewrite (allChars_excludes _ _ ws1 space_not_comma H1).
  rewrite (allChars_excludes _ _ ws2 space_not_comma H2).
  by rewrite (allChars_excludes _ _ s digit_not_comma Hs).
Qed.

(** ** trim *)

Lemma trimStart_blank ws s : blank ws → JS.trimStart (ws +:+ s) = JS.trimStart s.
Proof.
  unfold blank. induction ws as [|c ws IH]; simpl; [done|].
  intros [Hc Hs]%andb_true_iff. rewrite Hc. auto.
Qed.

Lemma trimEnd_blank ws : blank ws → JS.trimEnd ws = "".
Proof.
  unfold blank. induction ws as [|c ws IH]; simpl; [done|].
  intros [Hc Hs]%andb_true_iff. by rewrite (IH Hs), Hc.
Qed.

Lemma trimEnd_digits s : allChars isDigit s = true → JS.trimEnd s = s.
Proof.
  induction s as [|c s IH]; simpl; [done|].
  intros [Hc Hs]%andb_true_iff. rewrite (IH Hs), (digit_not_space c Hc).
  by destruct s.
Qed.

Lemma trimEnd_app_blank s ws :
  allChars isDigit s = true → blank ws → JS.trimEnd (s +:+ ws) = s.
Proof.
  intros Hs Hws. induction s as [|c s IH]; simpl.
  - by apply trimEnd_blank.
  - simpl in Hs. apply andb_true_iff in Hs as [Hc Hs].
    rewrite (IH Hs), (digit_not_space c Hc). by destruct s.
Qed.

Lemma trim_padded ws1 s ws2 :
  blank ws1 → blank ws2 → allChars isDigit s = true →
  JS.trim (ws1 +:+ s +:+ ws2) = s.
Proof.
  intros H1 H2 Hs. unfold JS.trim. rewrite trimStart_blank by done.
  destruct s as [|c s].
  - simpl. assert (JS.trimStart ws2 = "") as ->; [|done].
    clear -H2. unfold blank in H2. induction ws2 as [|c ws IH]; simpl; [done|].
    simpl in H2. apply andb_true_iff in H2 as [Hc Hw]. rewrite Hc. auto.
  - assert (JS.trimStart (String c s +:+ ws2) = String c s +:+ ws2) as ->.
    { simpl in *. apply andb_true_iff in Hs as [Hc _].
      by rewrite (digit_not_space c Hc). }
    by apply trimEnd_app_blank.
Qed.

(** ** parseInt on a decimal numeral *)

Lemma parseDigits_digits s acc :
  allChars isDigit s = true →
  JS.parseDigits 10 s true acc = Some (decimalValue s acc).
Proof.
  revert acc. induction s as [|c s IH]; simpl; intros acc; [done|].
  intros [Hc Hs]%andb_true_iff. rewrite (digit_value c Hc). by apply IH.
Qed.

Lemma parseInt_numeral s n : numeral s n → JS.parseInt s = Some n.
Proof.
  intros (Hne & Hd & Hv). destruct s as [|c s]; [done|]. clear Hne.
  simpl in Hd. apply andb_true_iff in Hd as [Hc Hs].
  assert (JS.parseDigits 10 (String c s) false 0 = Some n) as Hparse.
  { simpl. rewrite (digit_value c Hc). rewrite parseDigits_digits by done.
    by rewrite <- Hv. }
  unfold JS.parseInt. simpl JS.trimStart. rewrite (digit_not_space c Hc).
  destruct c as [[] [] [] [] [] [] [] []]; try discriminate Hc;
    try (rewrite Hparse; f_equal; lia).
  (* the first digit is 0: the next character decides about the 0x prefix *)
  destruct s as [|c' s]; [rewrite Hparse; f_equal; lia|].
  simpl in Hs. apply andb_true_iff in Hs as [Hc' _].
  destruct c' as [[] [] [] [] [] [] [] []]; try discriminate Hc';
    rewrite Hparse; f_equal; lia.
Qed.

Lemma parseInt_trim_padded ws1 s ws2 n :
  blank ws1 → blank ws2 → numeral s n →
  JS.parseInt (JS.trim (ws1 +:+ s +:+ ws2)) = Some n.
Proof.
  intros H1 H2 Hn. rewrite trim_padded; [by apply parseInt_numeral|done..|].
  apply Hn.
Qed.

(** ** Number to string: the decimal numeral of a non-negative integer *)

Lemma string_of_uint_digits u :
  allChars isDigit (NilEmpty.string_of_uint u) = true.
Proof. induction u; simpl; done. Qed.

Lemma decimalValue_of_uint_acc u acc :
  decimalValue (NilEmpty.string_of_uint u) (Z.pos acc)
  = Z.pos (Pos.of_uint_acc u acc).
Proof.
  revert acc. induction u; intros acc; simpl; [done|..];
    (etrans; [|apply IHu]); f_equal; lia.
Qed.

Lemma decimalValue_of_uint u :
  decimalValue (NilEmpty.string_of_uint u) 0 = Z.of_N (Pos.of_uint u).
Proof.
  induction u; simpl; [done|done|..]; apply (decimalValue_of_uint_acc u).
Qed.

Lemma toString_numeral n : 0 ≤ n → numeral (JS.toString n) n.
Proof.
  intros Hn. unfold JS.toString. destruct n as [|p|p]; [|clear Hn|lia].
  { repeat split; done. }
  simpl. pose proof (DecimalPos.Unsigned.to_uint_nonnil p) as Hnil.
  assert (NilZero.string_of_uint (Pos.to_uint p)
          = NilEmpty.string_of_uint (Pos.to_uint p)) as ->.
  { by destruct (Pos.to_uint p). }
  split; [by destruct (Pos.to_uint p)|].
  split; [apply string_of_uint_digits|].
  by rewrite decimalValue_of_uint, DecimalPos.Unsigned.of_to.
Qed.

End JSFacts.

(* ===================================================================== *)
(** * parsePageRange                                                      *)
(* ===================================================================== *)

Module PageRange.
Import Grammar JSFacts.

#[local] Arguments String.append !s1 s2 : simpl nomatch.

(** Pushing pages that all lie in the document appends their indices. *)
Lemma foldl_pushPage_valid totalPages l pages :
  Forall (λ i, 1 ≤ i ≤ totalPages) l →
  foldl (pushPage totalPages) pages l = pages ++ map (λ i, i - 1) l.
Proof.
  intros Hl. revert pages. induction Hl as [|i l Hi _ IH]; intros pages; simpl.
  - by rewrite app_nil_r.
  - unfold pushPage at 2.
    assert ((1 <=? i) && (i <=? totalPages) = true) as ->.
    { apply andb_true_iff. split; apply Z.leb_le; lia. }
    rewrite IH. by rewrite <- app_assoc.
Qed.

(** Whatever is pushed is the index of a page of the document. *)
Lemma pushPage_bounds totalPages pages i :
  Forall (λ j, 0 ≤ j < totalPages) pages →
  Forall (λ j, 0 ≤ j < totalPages) (pushPage totalPages pages i).
Proof.
  intros H. unfold pushPage.
  destruct ((1 <=? i) && (i <=? totalPages)) eqn:E; [|done].
  apply andb_true_iff in E as [?%Z.leb_le ?%Z.leb_le].
  apply Forall_app. split; [done|]. constructor; [lia|done].
Qed.

(** A token made of one padded numeral: the single-page branch runs. *)
Lemma parsePart_single totalPages pages ws1 s ws2 n :
  blank ws1 → blank ws2 → numeral s n →
  parsePart totalPages pages (ws1 +:+ s +:+ ws2) = pushPage totalPages pages n.
Proof.
  intros H1 H2 Hn. unfold parsePart.
  rewrite padded_no_hyphen by (done || apply Hn).
  by rewrite (parseInt_trim_padded ws1 s ws2 n).
Qed.

(** A token made of two padded numerals around a hyphen: the range branch
    runs the loop between the two values. *)
Lemma parsePart_range totalPages pages ws1 s1 ws2 ws3 s2 ws4 a b :
  blank ws1 → blank ws2 → blank ws3 → blank ws4 →
  numeral s1 a → numeral s2 b →
  parsePart totalPages pages (ws1 +:+ s1 +:+ ws2 +:+ "-" +:+ ws3 +:+ s2 +:+ ws4)
  = rangeLoop totalPages (Some a) (Some b) pages.
Proof.
  intros H1 H2 H3 H4 Ha Hb. unfold parsePart.
  assert (JS.includes "-" (ws1 +:+ s1 +:+ ws2) = false) as Hleft
    by (apply padded_no_hyphen; done || apply Ha).
  assert (JS.includes "-" (ws3 +:+ s2 +:+ ws4) = false) as Hright
    by (apply padded_no_hyphen; done || apply Hb).
  replace (ws1 +:+ s1 +:+ ws2 +:+ "-" +:+ ws3 +:+ s2 +:+ ws4)
    with ((ws1 +:+ s1 +:+ ws2) +:+ String "-" (ws3 +:+ s2 +:+ ws4))
    by (by rewrite !append_assoc).
  assert (JS.includes "-"
            ((ws1 +:+ s1 +:+ ws2) +:+ String "-" (ws3 +:+ s2 +:+ ws4)) = true)
    as ->.
  { rewrite includes_app. simpl. by rewrite orb_true_r. }
  rewrite split_app_sep, split_none by done. simpl.
  by rewrite (parseInt_trim_padded ws1 s1 ws2 a),
             (parseInt_trim_padded ws3 s2 ws4 b).
Qed.

Lemma token_no_comma totalPages t ps :
  token totalPages t ps → JS.includes "," t = false.
Proof.
  intros [ws1 s ws2 n H1 H2 Hn _
         |ws1 s1 ws2 ws3 s2 ws4 a b H1 H2 H3 H4 Ha Hb _ _ _].
  - apply padded_no_comma; done || apply Hn.
  - replace (ws1 +:+ s1 +:+ ws2 +:+ "-" +:+ ws3 +:+ s2 +:+ ws4)
      with ((ws1 +:+ s1 +:+ ws2) +:+ String "-" (ws3 +:+ s2 +:+ ws4))
      by (by rewrite !append_assoc).
    rewrite includes_app. simpl.
    rewrite !padded_no_comma; done || apply Ha || apply Hb.
Qed.

Lemma token_pages totalPages t ps :
  token totalPages t ps → ps ≠ [] ∧ Forall (λ p, 1 ≤ p ≤ totalPages) ps.
Proof.
  intros [ws1 s ws2 n _ _ _ Hn|ws1 s1 ws2 ws3 s2 ws4 a b _ _ _ _ _ _ Ha Hb Hab].
  - split; [done|]. by constructor.
  - split.
    + rewrite (seqZ_cons a (b - a + 1)) by lia. done.
    + apply Forall_seqZ. intros; lia.
Qed.

Lemma parsePart_token totalPages pages t ps :
  token totalPages t ps →
  parsePart totalPages pages t = pages ++ map (λ p, p - 1) ps.
Proof.
  intros Ht. pose proof (token_pages _ _ _ Ht) as [_ Hps]. revert Hps.
  destruct Ht as [ws1 s ws2 n H1 H2 Hn Hb
                 |ws1 s1 ws2 ws3 s2 ws4 a b H1 H2 H3 H4 Ha Hb _ _ _]; intros Hps.
  - rewrite (parsePart_single _ _ ws1 s ws2 n) by done.
    by rewrite <- (foldl_pushPage_valid totalPages [n] pages).
  - rewrite (parsePart_range _ _ ws1 s1 ws2 ws3 s2 ws4 a b) by done.
    unfold rangeLoop.
    by apply foldl_pushPage_valid.
Qed.

Lemma expression_pages totalPages e pages :
  expression totalPages e pages →
  pages ≠ [] ∧ Forall (λ p, 1 ≤ p ≤ totalPages) pages.
Proof.
  induction 1 as [t ps Ht|t ps e qs Ht _ [_ IH]].
  - by eapply token_pages.
  - destruct (token_pages _ _ _ Ht) as [Hne Hps]. split.
    + by destruct ps.
    + by apply Forall_app.
Qed.

Lemma foldl_parsePart_expression totalPages e pages acc :
  expression totalPages e pages →
  foldl (parsePart totalPages) acc (JS.split "," e)
  = acc ++ map (λ p, p - 1) pages.
Proof.
  intros He. revert acc. induction He as [t ps Ht|t ps e qs Ht _ IH]; intros acc.
  - rewrite split_none by (by eapply token_no_comma). simpl.
    by apply parsePart_token.
  - change (t +:+ "," +:+ e) with (t +:+ String "," e).
    rewrite split_app_sep by (by eapply token_no_comma). simpl.
    rewrite (parsePart_token _ _ _ _ Ht), IH, map_app. by rewrite <- app_assoc.
Qed.

Lemma parsePageRange_bounds range totalPages :
  Forall (λ i, 0 ≤ i < totalPages) (parsePageRange range totalPages).
Proof.
  unfold parsePageRange.
  assert (∀ parts acc, Forall (λ i, 0 ≤ i < totalPages) acc →
            Forall (λ i, 0 ≤ i < totalPages)
              (foldl (parsePart totalPages) acc parts)) as H; [|by apply H].
  induction parts as [|part parts IH]; intros acc Hacc; simpl; [done|].
  apply IH. unfold parsePart.
  destruct (JS.includes "-" part).
  - destruct (map _ _) as [|start [|end_ ?]]; [done..|].
    unfold rangeLoop. destruct start as [a|], end_ as [b|]; try done.
    generalize (seqZ a (b - a + 1)). intros js. revert acc Hacc.
    induction js as [|j js IHjs]; intros acc Hacc; simpl; [done|].
    apply IHjs. by apply pushPage_bounds.
  - destruct (JS.parseInt _); [|done]. by apply pushPage_bounds.
Qed.

End PageRange.

(* ===================================================================== *)
(** * The engine on storage                                               *)
(* ===================================================================== *)

Section Engine.
Context {Page bytes : Type} `{!Codec Page bytes}.
Variable now : Z.

Local Abbreviation FS := (gmap string bytes).
Local Abbreviation Doc := (PDFDocument Page).

(** ** pdf-lib *)

Lemma Pages_foldl_addPage (d : Doc) ps :
  Pages (foldl addPage d ps) = Pages d ++ ps.
Proof.
  revert d. induction ps as [|p ps IH]; intros d; simpl.
  - by rewrite app_nil_r.
  - rewrite IH. simpl. by rewrite <- app_assoc.
Qed.

Lemma copyPages_store {S} (src : Doc) indices (s : S) :
  (copyPages src indices s).2 = s.
Proof.
  induction indices as [|i rest IH]; simpl; [done|].
  destruct (pageAt src i); [|done]. unfold bind.
  destruct (copyPages src rest s) as [[ps|e] s'] eqn:E; simpl in *; done.
Qed.

Lemma copyPages_in_range {S} (src : Doc) indices (s : S) :
  Forall (λ i, 0 ≤ i < getPageCount src) indices →
  ∃ ps, copyPages src indices s = (Ok ps, s) ∧ length ps = length indices.
Proof.
  induction 1 as [|i rest Hi _ (ps & IH & Hlen)]; simpl.
  - by exists [].
  - unfold pageAt, getPageCount in *.
    assert ((0 <=? i) = true) as -> by (apply Z.leb_le; lia).
    destruct (lookup_lt_is_Some_2 (Pages src) (Z.to_nat i)) as [p Hp]; [lia|].
    rewrite Hp. unfold bind. rewrite IH. exists (p :: ps). simpl. by rewrite Hlen.
Qed.

Lemma copyPages_suffix {S} (seen rest : list Page) (src : Doc) (s : S) :
  Pages src = seen ++ rest →
  copyPages src (imap (λ i _, Z.of_nat (length seen + i)) rest) s = (Ok rest, s).
Proof.
  revert seen. induction rest as [|p rest IH]; intros seen Hsrc; [done|].
  rewrite imap_cons. simpl. unfold pageAt.
  assert ((0 <=? Z.of_nat (length seen + 0)) = true) as -> by (apply Z.leb_le; lia).
  rewrite Nat2Z.id, Hsrc, Nat.add_0_r.
  rewrite lookup_app_r, Nat.sub_diag by lia. simpl.
  unfold bind.
  specialize (IH (seen ++ [p])). rewrite <- app_assoc in IH.
  specialize (IH Hsrc).
  erewrite imap_ext; [rewrite IH; done|].
  intros i x _. simpl. rewrite length_app. simpl. f_equal. lia.
Qed.

Lemma copyPages_all {S} (src : Doc) (s : S) :
  copyPages src (imap (λ i _, Z.of_nat i) (getPages src)) s = (Ok (Pages src), s).
Proof. by apply (copyPages_suffix [] (Pages src) src s). Qed.

(** ** The file system *)

Lemma existsSync_Some (fs : FS) path b :
  fs !! path = Some b → existsSync path fs = (Ok true, fs).
Proof. intros H. unfold existsSync. by rewrite H. Qed.

Lemma existsSync_None (fs : FS) path :
  fs !! path = None → existsSync path fs = (Ok false, fs).
Proof. intros H. unfold existsSync. by rewrite H. Qed.

Lemma readFileSync_Some (fs : FS) path b :
  fs !! path = Some b → readFileSync path fs = (Ok b, fs).
Proof. intros H. unfold readFileSync. by rewrite H. Qed.

(** The three opening steps shared by the methods that take a source
    path: check, read, parse. *)
Lemma open_source {A} (fs : FS) path d (k : Doc → M FS A) :
  holds fs path d →
  bind (existsSync path) (λ found,
    if negb found then throw (Error ("File not found: " +:+ path)) else
    bind (readFileSync path) (λ pdfBytes,
    bind (PDFDocument_load pdfBytes) k)) fs
  = k d fs.
Proof.
  intros (b & Hb & Hd). unfold bind.
  rewrite (existsSync_Some fs path b Hb). simpl.
  rewrite (readFileSync_Some fs path b Hb).
  unfold PDFDocument_load. by rewrite Hd.
Qed.

Lemma open_missing {A} (fs : FS) path (k : Doc → M FS A) :
  fs !! path = None →
  bind (existsSync path) (λ found,
    if negb found then throw (Error ("File not found: " +:+ path)) else
    bind (readFileSync path) (λ pdfBytes,
    bind (PDFDocument_load pdfBytes) k)) fs
  = (Throw (Error ("File not found: " +:+ path)), fs).
Proof. intros Hp. unfold bind. by rewrite (existsSync_None fs path Hp). Qed.

Lemma open_unparsable {A} (fs : FS) path b (k : Doc → M FS A) :
  fs !! path = Some b → load b = None →
  bind (existsSync path) (λ found,
    if negb found then throw (Error ("File not found: " +:+ path)) else
    bind (readFileSync path) (λ pdfBytes,
    bind (PDFDocument_load pdfBytes) k)) fs
  = (Throw (Fault "Failed to parse PDF document"), fs).
Proof.
  intros Hb Hd. unfold bind.
  rewrite (existsSync_Some fs path b Hb). simpl.
  rewrite (readFileSync_Some fs path b Hb).
  unfold PDFDocument_load. by rewrite Hd.
Qed.

(** ** mergeLoop *)

Lemma mergeLoop_step filePath rest mergedPdf (fs : FS) d :
  holds fs filePath d →
  mergeLoop (filePath :: rest) mergedPdf fs
  = mergeLoop rest (foldl addPage mergedPdf (Pages d)) fs.
Proof.
  intros Hd. simpl. rewrite (open_source fs filePath d) by done.
  unfold bind. by rewrite copyPages_all.
Qed.

Lemma mergeLoop_missing filePath rest mergedPdf (fs : FS) :
  fs !! filePath = None →
  mergeLoop (filePath :: rest) mergedPdf fs
  = (Throw (Error ("File not found: " +:+ filePath)), fs).
Proof. intros Hp. simpl. by apply open_missing. Qed.

Lemma mergeLoop_unparsable filePath rest mergedPdf (fs : FS) b :
  fs !! filePath = Some b → load b = None →
  mergeLoop (filePath :: rest) mergedPdf fs
  = (Throw (Fault "Failed to parse PDF document"), fs).
Proof. intros Hb Hd. simpl. by eapply open_unparsable. Qed.

(** The loop only reads. *)
Lemma mergeLoop_store filePaths mergedPdf (fs : FS) :
  (mergeLoop filePaths mergedPdf fs).2 = fs.
Proof.
  revert mergedPdf. induction filePaths as [|p rest IH]; intros mergedPdf; [done|].
  destruct (fs !! p) as [b|] eqn:Hp.
  - destruct (load b) as [d|] eqn:Hd.
    + rewrite (mergeLoop_step p rest mergedPdf fs d) by (by exists b). apply IH.
    + by rewrite (mergeLoop_unparsable p rest mergedPdf fs b).
  - by rewrite mergeLoop_missing.
Qed.

(** All sources load: the loop returns the accumulated document. *)
Lemma mergeLoop_ok filePaths docs mergedPdf (fs : FS) :
  Forall2 (holds fs) filePaths docs →
  ∃ merged, mergeLoop filePaths mergedPdf fs = (Ok merged, fs)
    ∧ Pages merged = Pages mergedPdf ++ concat (map Pages docs).
Proof.
  intros H. revert mergedPdf.
  induction H as [|p d ps ds Hp _ IH]; intros mergedPdf.
  - exists mergedPdf. simpl. by rewrite app_nil_r.
  - rewrite (mergeLoop_step _ _ _ _ _ Hp).
    destruct (IH (foldl addPage mergedPdf (Pages d))) as (m & -> & Hm).
    exists m. split; [done|]. rewrite Hm, Pages_foldl_addPage. simpl.
    by rewrite <- app_assoc.
Qed.

(** The loop raises "File not found" exactly at the first missing path,
    provided that every path before it loads. *)
Lemma mergeLoop_not_found filePaths mergedPdf (fs : FS) path out :
  mergeLoop filePaths mergedPdf fs
    = (Throw (Error ("File not found: " +:+ path)), out)
  ↔ out = fs ∧ ∃ before after,
      filePaths = before ++ path :: after
      ∧ fs !! path = None
      ∧ Forall (λ p, ∃ d, holds fs p d) before.
Proof.
  split.
  - revert mergedPdf. induction filePaths as [|p rest IH]; intros mergedPdf Hrun.
    { discriminate Hrun. }
    destruct (fs !! p) as [b|] eqn:Hp.
    + destruct (load b) as [d|] eqn:Hd.
      * rewrite (mergeLoop_step p rest mergedPdf fs d) in Hrun by (by exists b).
        destruct (IH _ Hrun) as (-> & before & after & -> & Hmiss & Hbefore).
        split; [done|]. exists (p :: before), after. split; [done|].
        split; [done|]. constructor; [|done]. exists d. by exists b.
      * rewrite (mergeLoop_unparsable p rest mergedPdf fs b) in Hrun by done.
        discriminate Hrun.
    + rewrite mergeLoop_missing in Hrun by done.
      injection Hrun as Heq ->. split; [done|].
      exists [], rest. apply (inj (String.append _)) in Heq as ->. done.
  - intros (-> & before & after & -> & Hmiss & Hbefore). revert mergedPdf.
    induction Hbefore as [|p before [d Hp] _ IH]; intros mergedPdf.
    + by apply mergeLoop_missing.
    + simpl app. rewrite (mergeLoop_step _ _ _ _ _ Hp). apply IH.
Qed.

(** The loop stops with the parse error at the first file that exists but
    does not parse, provided that every path before it loads. *)
Lemma mergeLoop_first_unparsable before path after mergedPdf (fs : FS) b :
  Forall (λ p, ∃ d : Doc, holds fs p d) before →
  fs !! path = Some b → load b = None →
  mergeLoop (before ++ path :: after) mergedPdf fs
  = (Throw (Fault "Failed to parse PDF document"), fs).
Proof.
  intros Hbefore Hb Hd. revert mergedPdf.
  induction Hbefore as [|p before [d Hp] _ IH]; intros mergedPdf.
  - by eapply mergeLoop_unparsable.
  - simpl app. rewrite (mergeLoop_step _ _ _ _ _ Hp). apply IH.
Qed.

(** ** mergePDFs *)

(** What [mergePDFs] does to the document that the loop hands back. *)
Lemma mergePDFs_nonempty filePaths outputPath (fs : FS) :
  filePaths ≠ [] →
  mergePDFs now filePaths outputPath fs
  = match mergeLoop filePaths create fs with
    | (Ok merged, fs') =>
        let final := setModificationDate
                       (setProducer (setCreator merged "PDF Utilities MCP") "pdf-lib")
                       now in
        (Ok (VObj [("success", VBool true); ("path", VStr outputPath);
                   ("pages", VNum (getPageCountAfterSave final))]),
         <[outputPath := save final]> fs')
    | (Throw e, fs') => (Throw e, fs')
    end.
Proof.
  intros Hne. unfold mergePDFs. destruct filePaths as [|p rest]; [done|].
  change (length (p :: rest) =? 0)%nat with false. cbv iota.
  unfold bind, writeFileSync, ret.
  by destruct (mergeLoop (p :: rest) create fs) as [[m|e] fs'].
Qed.

Lemma mergeLoop_throws filePaths mergedPdf (fs : FS) e out :
  mergeLoop filePaths mergedPdf fs = (Throw e, out) →
  (∃ path, e = Error ("File not found: " +:+ path))
  ∨ e = Fault "Failed to parse PDF document".
Proof.
  revert mergedPdf. induction filePaths as [|p rest IH]; intros mergedPdf Hrun.
  { discriminate Hrun. }
  destruct (fs !! p) as [b|] eqn:Hp.
  - destruct (load b) as [d|] eqn:Hd.
    + rewrite (mergeLoop_step p rest mergedPdf fs d) in Hrun by (by exists b).
      by eapply IH.
    + rewrite (mergeLoop_unparsable p rest mergedPdf fs b) in Hrun by done.
      right. congruence.
  - rewrite mergeLoop_missing in Hrun by done. left. exists p. congruence.
Qed.

(** A failing merge leaves the storage as it found it. *)
Lemma mergePDFs_failure_writes_nothing filePaths outputPath (fs : FS) e out :
  mergePDFs now filePaths outputPath fs = (Throw e, out) → out = fs.
Proof.
  destruct filePaths as [|p rest].
  - unfold mergePDFs, throw. simpl. congruence.
  - rewrite mergePDFs_nonempty by done.
    pose proof (mergeLoop_store (p :: rest) create fs) as Hst.
    destruct (mergeLoop (p :: rest) create fs) as [[m|e'] fs']; simpl in *.
    + discriminate.
    + congruence.
Qed.

(** ** extractLoop *)

Lemma extractLoop_valid_step (pdfDoc : Doc) outputDir prefix pageNum rest files
    (fs : FS) :
  1 ≤ pageNum ≤ getPageCount pdfDoc →
  extractLoop pdfDoc outputDir prefix (pageNum :: rest) files fs
  = extractLoop pdfDoc outputDir prefix rest
      (files ++ [pageFile outputDir prefix pageNum])
      (writePage pdfDoc outputDir prefix fs pageNum).
Proof.
  intros Hin. simpl.
  assert ((pageNum <? 1) || (pageNum >? getPageCount pdfDoc) = false) as ->.
  { apply orb_false_iff. split; [apply Z.ltb_ge|rewrite Z.gtb_ltb; apply Z.ltb_ge]; lia. }
  unfold writePage, pageAt, getPageCount in *.
  assert ((0 <=? pageNum - 1) = true) as -> by (apply Z.leb_le; lia).
  destruct (lookup_lt_is_Some_2 (Pages pdfDoc) (Z.to_nat (pageNum - 1)))
    as [page Hpage]; [lia|].
  rewrite Hpage. done.
Qed.

Lemma extractLoop_invalid (pdfDoc : Doc) outputDir prefix pageNum rest files
    (fs : FS) :
  ¬ (1 ≤ pageNum ≤ getPageCount pdfDoc) →
  extractLoop pdfDoc outputDir prefix (pageNum :: rest) files fs
  = (Throw (Error ("Invalid page number: " +:+ JS.toString pageNum)), fs).
Proof.
  intros Hout. simpl.
  assert ((pageNum <? 1) || (pageNum >? getPageCount pdfDoc) = true) as ->; [|done].
  apply orb_true_iff. rewrite Z.gtb_ltb, !Z.ltb_lt. lia.
Qed.

Lemma extractLoop_first_invalid (pdfDoc : Doc) outputDir prefix before v after
    files (fs : FS) :
  Forall (λ p, 1 ≤ p ≤ getPageCount pdfDoc) before →
  ¬ (1 ≤ v ≤ getPageCount pdfDoc) →
  extractLoop pdfDoc outputDir prefix (before ++ v :: after) files fs
  = (Throw (Error ("Invalid page number: " +:+ JS.toString v)),
     foldl (writePage pdfDoc outputDir prefix) fs before).
Proof.
  intros Hbefore Hv. revert files fs.
  induction Hbefore as [|p before Hp _ IH]; intros files fs; simpl app.
  - by apply extractLoop_invalid.
  - rewrite extractLoop_valid_step by done. by rewrite IH.
Qed.

Lemma extractLoop_all_valid (pdfDoc : Doc) outputDir prefix pages files (fs : FS) :
  Forall (λ p, 1 ≤ p ≤ getPageCount pdfDoc) pages →
  extractLoop pdfDoc outputDir prefix pages files fs
  = (Ok (files ++ map (pageFile outputDir prefix) pages),
     foldl (writePage pdfDoc outputDir prefix) fs pages).
Proof.
  intros Hpages. revert files fs.
  induction Hpages as [|p pages Hp _ IH]; intros files fs.
  - simpl. by rewrite app_nil_r.
  - rewrite extractLoop_valid_step by done. rewrite IH. simpl.
    by rewrite <- app_assoc.
Qed.

End Engine.

(* ===================================================================== *)
(** * Page-range resolution: what the code guarantees                     *)
(* ===================================================================== *)

Section PageRangeClaims.
Import Grammar JSFacts PageRange.
#[local] Arguments String.append !s1 s2 : simpl nomatch.

(** The range that addresses the first [n] pages. *)
Lemma parsePageRange_first_pages n totalPages :
  0 ≤ n ≤ totalPages →
  parsePageRange ("1-" +:+ JS.toString n) totalPages
  = map (λ p, p - 1) (seqZ 1 n).
Proof.
  intros Hn. pose proof (toString_numeral n (proj1 Hn)) as Hnum.
  assert (numeral "1" 1) as Hone by (by repeat split).
  unfold parsePageRange. rewrite split_none.
  2: { change ("1-" +:+ JS.toString n) with ("1-" +:+ (JS.toString n)).
       rewrite includes_app. simpl.
       apply (allChars_excludes _ _ _ digit_not_comma), Hnum. }
  assert (parsePart totalPages [] ("1-" +:+ JS.toString n)
          = rangeLoop totalPages (Some 1) (Some n) []) as Hpart.
  { rewrite <- (parsePart_range totalPages [] "" "1" "" "" (JS.toString n) "" 1 n)
      by done.
    f_equal. simpl. by rewrite append_nil_r. }
  cbn [foldl]. rewrite Hpart.
  unfold rangeLoop. replace (n - 1 + 1) with n by lia.
  rewrite foldl_pushPage_valid; [done|].
  apply Forall_seqZ. intros; lia.
Qed.

(** C3 (amended). For every valid page-range expression, [parsePageRange]
    returns a non-empty sequence of 0-based page indices: the page numbers
    that the expression selects, each less one, in the left-to-right token
    order and with repeats kept; every index lies in [0, totalPages - 1]. *)
Theorem parsePageRange_valid totalPages e pages :
  expression totalPages e pages →
  parsePageRange e totalPages = map (λ p, p - 1) pages
  ∧ parsePageRange e totalPages ≠ []
  ∧ Forall (λ i, 0 ≤ i ≤ totalPages - 1) (parsePageRange e totalPages)
  ∧ Forall (λ p, 1 ≤ p ≤ totalPages) pages.
Proof.
  intros He. destruct (expression_pages _ _ _ He) as [Hne Hin].
  assert (parsePageRange e totalPages = map (λ p, p - 1) pages) as Heq.
  { unfold parsePageRange. by rewrite (foldl_parsePart_expression _ _ pages). }
  split; [done|]. split; [|split; [|done]].
  - rewrite Heq. by destruct pages.
  - eapply Forall_impl; [apply parsePageRange_bounds|]. simpl. intros; lia.
Qed.

Lemma expression_3_9 : expression 20 "3-9" [3; 4; 5; 6; 7; 8; 9].
Proof.
  apply expression_last.
  apply (token_range 20 "" "3" "" "" "9" "" 3 9); try done;
    repeat split; done || lia.
Qed.

(** On "3-9" and 20 pages: the indices 2 to 8. *)
Lemma parsePageRange_valid_witness :
  expression 20 "3-9" [3; 4; 5; 6; 7; 8; 9]
  ∧ (parsePageRange "3-9" 20 = [2; 3; 4; 5; 6; 7; 8]
     ∧ parsePageRange "3-9" 20 ≠ []
     ∧ Forall (λ i, 0 ≤ i ≤ 20 - 1) (parsePageRange "3-9" 20)
     ∧ Forall (λ p, 1 ≤ p ≤ 20) [3; 4; 5; 6; 7; 8; 9]).
Proof.
  split; [exact expression_3_9|].
  exact (parsePageRange_valid 20 "3-9" [3; 4; 5; 6; 7; 8; 9] expression_3_9).
Defined.

(** C3 as stated fails: the sequence returned for "3-9" is not
    [3,...,9], and for "1" on a one-page document the element returned
    is outside [1, totalPages]. *)
Lemma parsePageRange_not_one_based :
  expression 20 "3-9" [3; 4; 5; 6; 7; 8; 9]
  ∧ parsePageRange "3-9" 20 ≠ [3; 4; 5; 6; 7; 8; 9]
  ∧ expression 1 "1" [1]
  ∧ ¬ Forall (λ p, 1 ≤ p ≤ 1) (parsePageRange "1" 1).
Proof.
  split; [exact expression_3_9|]. split; [by vm_compute|]. split.
  - apply expression_last.
    apply (token_single 1 "" "1" "" 1); try done; repeat split; done.
  - assert (parsePageRange "1" 1 = [0]) as -> by reflexivity.
    intros H. apply Forall_inv in H. lia.
Qed.

(** Order and repeats: tokens are resolved left to right and nothing is
    deduplicated. *)
Example parsePageRange_repeats :
  parsePageRange "5, 2-3 ,2,5" 20 = [4; 1; 2; 1; 4].
Proof. reflexivity. Qed.

(** C2, at the failing inputs. Out-of-range numbers are dropped and the
    rest of the expression is resolved; nothing is raised. *)
Theorem parsePageRange_drops_out_of_range :
  parsePageRange "0" 20 = []
  ∧ parsePageRange "25" 20 = []
  ∧ parsePageRange "1,25" 20 = [0]
  ∧ parsePageRange "18-25" 20 = [17; 18; 19].
Proof. repeat split; reflexivity. Qed.

(** C9, at the failing input. The empty expression resolves to the empty
    sequence, whatever the page count; nothing is raised. *)
Theorem parsePageRange_empty_expression totalPages :
  parsePageRange "" totalPages = [].
Proof. reflexivity. Qed.

End PageRangeClaims.

(* ===================================================================== *)
(** * The engine: what the code guarantees                                *)
(* ===================================================================== *)

Section EngineClaims.
Context {Page bytes : Type} `{!Codec Page bytes}.

Local Abbreviation FS := (gmap string bytes).
Local Abbreviation Doc := (PDFDocument Page).

(** ** extractPages *)

Lemma writePage_keeps (pdfDoc : Doc) outputDir prefix (fs : FS) p k :
  is_Some (fs !! k) → is_Some (writePage pdfDoc outputDir prefix fs p !! k).
Proof.
  intros Hk. unfold writePage. destruct (pageAt pdfDoc (p - 1)); [|done].
  rewrite lookup_insert. by case_decide.
Qed.

Lemma foldl_writePage_keeps (pdfDoc : Doc) outputDir prefix (fs : FS) ps k :
  is_Some (fs !! k) →
  is_Some (foldl (writePage pdfDoc outputDir prefix) fs ps !! k).
Proof.
  revert fs. induction ps as [|p ps IH]; intros fs Hk; [done|].
  simpl. by apply IH, writePage_keeps.
Qed.

Lemma foldl_writePage_written (pdfDoc : Doc) outputDir prefix (fs : FS) ps p :
  Forall (λ q, 1 ≤ q ≤ getPageCount pdfDoc) ps → p ∈ ps →
  is_Some (foldl (writePage pdfDoc outputDir prefix) fs ps
             !! pageFile outputDir prefix p).
Proof.
  intros Hps. revert fs. induction Hps as [|q ps Hq _ IH]; intros fs Hin.
  { by apply elem_of_nil in Hin. }
  apply elem_of_cons in Hin as [->|Hin]; [|by apply IH].
  simpl. apply foldl_writePage_keeps. unfold writePage, pageAt, getPageCount in *.
  assert ((0 <=? q - 1) = true) as -> by (apply Z.leb_le; lia).
  destruct (lookup_lt_is_Some_2 (Pages pdfDoc) (Z.to_nat (q - 1)))
    as [page ->]; [lia|].
  rewrite lookup_insert_eq. by eexists.
Qed.

(** C1 (amended). When the requested sequence contains a number outside
    [1, totalPages], [extractPages] fails with "Invalid page number"
    naming the first such number [v]; by then one file has been written
    for each requested number that precedes [v], and nothing has been
    written for [v] or for any number after it. *)
Theorem extractPages_stops_at_first_invalid
    (fs : FS) filePath (pdfDoc : Doc) outputDir prefix before v after :
  holds fs filePath pdfDoc →
  Forall (λ p, 1 ≤ p ≤ getPageCount pdfDoc) before →
  ¬ (1 ≤ v ≤ getPageCount pdfDoc) →
  ∃ fs',
    extractPages filePath (before ++ v :: after) outputDir prefix fs
    = (Throw (Error ("Invalid page number: " +:+ JS.toString v)), fs')
    ∧ fs' = foldl (writePage pdfDoc outputDir (default "page" prefix)) fs before
    ∧ ∀ p, p ∈ before →
        is_Some (fs' !! pageFile outputDir (default "page" prefix) p).
Proof.
  intros Hsrc Hbefore Hv. eexists. split; [|split; [reflexivity|]].
  - unfold extractPages. rewrite (open_source fs filePath pdfDoc) by done.
    unfold bind. by rewrite extractLoop_first_invalid.
  - intros p Hp. by apply foldl_writePage_written.
Qed.

(** When every requested number is a page of the document, one file per
    number is written and the paths come back in request order. *)
Lemma extractPages_all_valid (fs : FS) filePath (pdfDoc : Doc) outputDir prefix pages :
  holds fs filePath pdfDoc →
  Forall (λ p, 1 ≤ p ≤ getPageCount pdfDoc) pages →
  extractPages filePath pages outputDir prefix fs
  = (Ok (VObj [("success", VBool true);
               ("files", VArr (map VStr
                  (map (pageFile outputDir (default "page" prefix)) pages)))]),
     foldl (writePage pdfDoc outputDir (default "page" prefix)) fs pages).
Proof.
  intros Hsrc Hpages. unfold extractPages.
  rewrite (open_source fs filePath pdfDoc) by done.
  unfold bind. by rewrite extractLoop_all_valid.
Qed.

(** ** mergePDFs *)

(** C7 (amended). [mergePDFs] fails with "No PDF files provided for
    merging" exactly when the list is empty. It fails with "File not
    found" naming [path] exactly when [path] is the first listed path
    that is absent from storage and every path listed before it holds a
    file that parses; when the first path that does not load is a file
    that exists but does not parse, the failure is the parse error.
    Whatever the failure, nothing has been written. *)
Theorem mergePDFs_failures now filePaths outputPath (fs : FS) :
  (∀ out,
     mergePDFs now filePaths outputPath fs
       = (Throw (Error "No PDF files provided for merging"), out)
     ↔ filePaths = [] ∧ out = fs)
  ∧ (∀ path out,
       mergePDFs now filePaths outputPath fs
         = (Throw (Error ("File not found: " +:+ path)), out)
       ↔ out = fs ∧ ∃ before after,
           filePaths = before ++ path :: after
           ∧ fs !! path = None
           ∧ Forall (λ p, ∃ d : Doc, holds fs p d) before)
  ∧ (∀ before path after b,
       filePaths = before ++ path :: after →
       Forall (λ p, ∃ d : Doc, holds fs p d) before →
       fs !! path = Some b → load b = None →
       mergePDFs now filePaths outputPath fs
       = (Throw (Fault "Failed to parse PDF document"), fs))
  ∧ (∀ e out,
       mergePDFs now filePaths outputPath fs = (Throw e, out) → out = fs).
Proof.
  split; [|split; [|split]].
  - intros out. split.
    + destruct filePaths as [|p rest]; intros Hrun.
      { split; [done|]. unfold mergePDFs, throw in Hrun. simpl in Hrun. congruence. }
      rewrite mergePDFs_nonempty in Hrun by done.
      destruct (mergeLoop (p :: rest) create fs) as [[m|e] fs'] eqn:Hloop;
        [discriminate|].
      apply mergeLoop_throws in Hloop as [[path ->]| ->]; discriminate.
    + by intros [-> ->].
  - intros path out. destruct filePaths as [|p rest].
    + split; [discriminate|]. intros (_ & before & after & Heq & _).
      by destruct before.
    + rewrite mergePDFs_nonempty by done.
      rewrite <- (mergeLoop_not_found (p :: rest) create fs path out).
      destruct (mergeLoop (p :: rest) create fs) as [[m|e] fs'];
        [|split; intros [= -> ->]; done].
      cbv zeta. split; discriminate.
  - intros before path after b -> Hbefore Hb Hd.
    rewrite mergePDFs_nonempty by (by destruct before).
    by rewrite (mergeLoop_first_unparsable before path after create fs b).
  - intros e out. apply mergePDFs_failure_writes_nothing.
Qed.

(** A successful merge: the pages of the sources, in list order. *)
Lemma mergePDFs_ok now filePaths docs outputPath (fs : FS) :
  filePaths ≠ [] →
  Forall2 (holds fs) filePaths docs →
  ∃ merged : Doc,
    mergePDFs now filePaths outputPath fs
    = (Ok (VObj [("success", VBool true); ("path", VStr outputPath);
                 ("pages", VNum (getPageCountAfterSave merged))]),
       <[outputPath := save merged]> fs)
    ∧ Pages merged = concat (map Pages docs).
Proof.
  intros Hne Hdocs. rewrite mergePDFs_nonempty by done.
  destruct (mergeLoop_ok filePaths docs create fs Hdocs) as (m & -> & Hm).
  eexists. split; [reflexivity|]. done.
Qed.

(** ** splitPDF after mergePDFs *)

Lemma splitPDF_ok now (fs : FS) filePath (pdfDoc : Doc) pageRange outputPath :
  holds fs filePath pdfDoc →
  ∃ out : Doc,
    splitPDF now filePath pageRange outputPath fs
    = (Ok (VObj [("success", VBool true); ("path", VStr outputPath);
                 ("pages", VNum (getPageCountAfterSave out))]),
       <[outputPath := save out]> fs)
    ∧ length (Pages out)
      = length (parsePageRange pageRange (getPageCount pdfDoc)).
Proof.
  intros Hsrc. unfold splitPDF. rewrite (open_source fs filePath pdfDoc) by done.
  destruct (copyPages_in_range pdfDoc
              (parsePageRange pageRange (getPageCount pdfDoc)) fs)
    as (ps & Hcopy & Hlen); [apply PageRange.parsePageRange_bounds|].
  unfold bind. rewrite Hcopy. unfold writeFileSync, ret.
  eexists. split; [reflexivity|].
  simpl. rewrite Pages_foldl_addPage. simpl. done.
Qed.

Lemma getPageCountAfterSave_pages (d : Doc) :
  1 ≤ getPageCount d → getPageCountAfterSave d = getPageCount d.
Proof.
  intros Hd. unfold getPageCountAfterSave.
  destruct (Z.eqb_spec (getPageCount d) 0); [lia|done].
Qed.

(** C6 (amended). When A has at least one page, merging [A, B] and then
    splitting the merged file with the range "1-{pageCount(A)}" writes a
    document that has as many pages as [A], and that is the page count
    the split reports. The codec is assumed to give back, for a saved
    document, a document with the page count that the handle has after
    the save. *)
Theorem merge_then_split_page_count
    now1 now2 (fs : FS) pathA pathB (A B : Doc) mergedPath outputPath :
  (∀ d : Doc, ∃ d' : Doc,
      load (save d) = Some d' ∧ getPageCount d' = getPageCountAfterSave d) →
  holds fs pathA A →
  holds fs pathB B →
  1 ≤ getPageCount A →
  ∃ fs1 fs2 (out : Doc),
    mergePDFs now1 [pathA; pathB] mergedPath fs
    = (Ok (VObj [("success", VBool true); ("path", VStr mergedPath);
                 ("pages", VNum (getPageCount A + getPageCount B))]), fs1)
    ∧ splitPDF now2 mergedPath ("1-" +:+ JS.toString (getPageCount A))
        outputPath fs1
      = (Ok (VObj [("success", VBool true); ("path", VStr outputPath);
                   ("pages", VNum (getPageCount A))]), fs2)
    ∧ holds fs2 outputPath out
    ∧ getPageCount out = getPageCount A.
Proof.
  intros Hcodec HA HB Hpos.
  destruct (mergePDFs_ok now1 [pathA; pathB] [A; B] mergedPath fs)
    as (merged & Hmerge & Hpages); [done|by repeat constructor|].
  simpl in Hpages. rewrite app_nil_r in Hpages.
  assert (getPageCount merged = getPageCount A + getPageCount B) as Hcount.
  { unfold getPageCount. rewrite Hpages, length_app. lia. }
  assert (0 ≤ getPageCount B) as HposB by (unfold getPageCount; lia).
  rewrite getPageCountAfterSave_pages in Hmerge by lia.
  destruct (Hcodec merged) as (merged' & Hload & Hcount').
  rewrite getPageCountAfterSave_pages in Hcount' by lia.
  set (fs1 := <[mergedPath := save merged]> fs) in *.
  assert (holds fs1 mergedPath merged') as Hheld.
  { exists (save merged). split; [apply lookup_insert_eq|done]. }
  destruct (splitPDF_ok now2 fs1 mergedPath merged'
              ("1-" +:+ JS.toString (getPageCount A)) outputPath Hheld)
    as (out & Hsplit & Hlen).
  rewrite parsePageRange_first_pages in Hlen by lia.
  rewrite length_map, length_seqZ in Hlen.
  assert (getPageCount out = getPageCount A) as Hout.
  { unfold getPageCount in *. lia. }
  rewrite getPageCountAfterSave_pages in Hsplit by lia.
  destruct (Hcodec out) as (out' & Hload' & Hcount'').
  rewrite getPageCountAfterSave_pages in Hcount'' by lia.
  exists fs1, (<[outputPath := save out]> fs1), out'.
  rewrite Hmerge, Hsplit, Hcount, Hout. split; [done|]. split; [done|].
  split; [|lia].
  exists (save out). split; [apply lookup_insert_eq|done].
Qed.

(** ** updatePDFMetadata *)

Lemma updatePDFMetadata_ok now (fs : FS) filePath (pdfDoc : Doc) metadata outputPath :
  holds fs filePath pdfDoc →
  ∃ savePath,
    updatePDFMetadata now filePath metadata outputPath fs
    = (Ok (VObj [("success", VBool true); ("path", VStr savePath)]),
       <[savePath := save (applyMetadata now pdfDoc metadata)]> fs).
Proof.
  intros Hsrc. unfold updatePDFMetadata.
  rewrite (open_source fs filePath pdfDoc) by done.
  unfold bind, writeFileSync, ret. by eexists.
Qed.

(** C8. A metadata write stores a document in which every descriptive
    field is the prior value or the value given in the update, and is the
    prior value whenever the update leaves the field out; the pages and
    the remaining fields are carried over, and the modification time is
    set to the time of the call. With an empty update, only the
    modification time differs from the source. *)
Theorem updatePDFMetadata_frame
    now (fs : FS) filePath (pdfDoc : Doc) metadata outputPath :
  holds fs filePath pdfDoc →
  ∃ savePath (written : Doc),
    updatePDFMetadata now filePath metadata outputPath fs
    = (Ok (VObj [("success", VBool true); ("path", VStr savePath)]),
       <[savePath := save written]> fs)
    ∧ (title metadata = None → Title written = Title pdfDoc)
    ∧ (author metadata = None → Author written = Author pdfDoc)
    ∧ (subject metadata = None → Subject written = Subject pdfDoc)
    ∧ (keywords metadata = None → Keywords written = Keywords pdfDoc)
    ∧ (Title written = Title pdfDoc ∨ Title written = title metadata)
    ∧ (Author written = Author pdfDoc ∨ Author written = author metadata)
    ∧ (Subject written = Subject pdfDoc ∨ Subject written = subject metadata)
    ∧ (Keywords written = Keywords pdfDoc
       ∨ Keywords written = keywords metadata)
    ∧ Pages written = Pages pdfDoc
    ∧ Creator written = Creator pdfDoc
    ∧ Producer written = Producer pdfDoc
    ∧ CreationDate written = CreationDate pdfDoc
    ∧ ModDate written = Some now
    ∧ (metadata = mkMetadata None None None None →
       written = setModificationDate pdfDoc now).
Proof.
  intros Hsrc.
  destruct (updatePDFMetadata_ok now fs filePath pdfDoc metadata outputPath Hsrc)
    as (savePath & Hrun).
  exists savePath, (applyMetadata now pdfDoc metadata). split; [done|].
  destruct metadata as [[t|] [a|] [s|] [k|]]; unfold applyMetadata, ifTruthy; simpl;
    repeat match goal with
           | |- context [String.eqb ?x ""] => destruct (String.eqb_spec x "")
           end; simpl; subst;
    repeat split; auto; try discriminate.
Qed.

(** C10. A field given as the empty string is treated like a field left
    out: the stored document keeps the prior value. No update can turn a
    field into the empty string: a stored field is empty only if it was
    empty before. *)
Theorem updatePDFMetadata_empty_string_ignored
    now (fs : FS) filePath (pdfDoc : Doc) metadata outputPath :
  holds fs filePath pdfDoc →
  ∃ savePath (written : Doc),
    updatePDFMetadata now filePath metadata outputPath fs
    = (Ok (VObj [("success", VBool true); ("path", VStr savePath)]),
       <[savePath := save written]> fs)
    ∧ (title metadata = Some "" → Title written = Title pdfDoc)
    ∧ (author metadata = Some "" → Author written = Author pdfDoc)
    ∧ (subject metadata = Some "" → Subject written = Subject pdfDoc)
    ∧ (keywords metadata = Some "" → Keywords written = Keywords pdfDoc)
    ∧ (Title written = Some "" → Title pdfDoc = Some "")
    ∧ (Author written = Some "" → Author pdfDoc = Some "")
    ∧ (Subject written = Some "" → Subject pdfDoc = Some "")
    ∧ (Keywords written = Some "" → Keywords pdfDoc = Some "").
Proof.
  intros Hsrc.
  destruct (updatePDFMetadata_ok now fs filePath pdfDoc metadata outputPath Hsrc)
    as (savePath & Hrun).
  exists savePath, (applyMetadata now pdfDoc metadata). split; [done|].
  destruct metadata as [[t|] [a|] [s|] [k|]]; unfold applyMetadata, ifTruthy; simpl;
    repeat match goal with
           | |- context [String.eqb ?x ""] => destruct (String.eqb_spec x "")
           end; simpl; subst;
    repeat split; auto; try discriminate; try congruence.
Qed.

End EngineClaims.

(* ===================================================================== *)
(** * The engine on the sample storage                                    *)
(* ===================================================================== *)

Section EngineRuns.
Import Sample.

Lemma report_on_disk : holds disk "/in/report.pdf" report.
Proof. exists (PDF report). split; reflexivity. Defined.

Lemma annex_on_disk : holds disk "/in/annex.pdf" annex.
Proof. exists (PDF annex). split; reflexivity. Defined.

(** Pages [1, 999] of the ten-page report: page 1 is written, then 999
    is rejected. *)
Lemma extractPages_stops_at_first_invalid_witness :
  holds disk "/in/report.pdf" report
  ∧ Forall (λ p, 1 ≤ p ≤ getPageCount report) [1]
  ∧ ¬ (1 ≤ 999 ≤ getPageCount report)
  ∧ ∃ fs',
      extractPages "/in/report.pdf" ([1] ++ 999 :: []) "/out" None disk
      = (Throw (Error ("Invalid page number: " +:+ JS.toString 999)), fs')
      ∧ fs' = foldl (writePage report "/out" (default "page" None)) disk [1]
      ∧ ∀ p, p ∈ [1] → is_Some (fs' !! pageFile "/out" (default "page" None) p).
Proof.
  assert (Forall (λ p, 1 ≤ p ≤ getPageCount report) [1]) as Hbefore.
  { constructor; [|constructor]. unfold getPageCount. simpl. lia. }
  assert (¬ (1 ≤ 999 ≤ getPageCount report)) as Hv.
  { unfold getPageCount. simpl. lia. }
  split; [exact report_on_disk|]. split; [exact Hbefore|]. split; [exact Hv|].
  exact (extractPages_stops_at_first_invalid disk "/in/report.pdf" report "/out"
           None [1] 999 [] report_on_disk Hbefore Hv).
Defined.

(** C1 as stated fails: on the ten-page report and the pages [1, 999]
    the call raises "Invalid page number: 999", and the file for page 1,
    which was not there before, is on disk afterwards. *)
Lemma extractPages_not_atomic :
  (extractPages "/in/report.pdf" [1; 999] "/out" None disk).1
  = Throw (Error "Invalid page number: 999")
  ∧ disk !! "/out/page_1.pdf" = None
  ∧ (extractPages "/in/report.pdf" [1; 999] "/out" None disk).2
      !! "/out/page_1.pdf"
    = Some (PDF (addPage create "p1")).
Proof. repeat split; vm_compute; reflexivity. Qed.

(** C7 as stated fails: a listed path is missing, yet the failure is
    the parse error of the file listed before it. *)
Lemma mergePDFs_unparsable_before_missing :
  disk !! "/in/missing.pdf" = None
  ∧ mergePDFs 0 ["/in/notes.txt"; "/in/missing.pdf"] "/out/merged.pdf" disk
    = (Throw (Fault "Failed to parse PDF document"), disk).
Proof. split; vm_compute; reflexivity. Qed.

Example mergePDFs_missing_alone :
  mergePDFs 0 ["/in/missing.pdf"] "/out/merged.pdf" disk
  = (Throw (Error "File not found: /in/missing.pdf"), disk).
Proof. vm_compute; reflexivity. Qed.

Example splitPDF_first_pages_run :
  (splitPDF 6000 "/in/report.pdf" "1-3" "/out/first.pdf" disk).2
    !! "/out/first.pdf"
  = Some (PDF {| Pages := ["p1"; "p2"; "p3"];
                 Title := None; Author := None; Subject := None;
                 Keywords := None; Creator := Some "PDF Utilities MCP";
                 Producer := Some "pdf-lib"; CreationDate := Some 6000;
                 ModDate := None |}).
Proof. vm_compute; reflexivity. Qed.

(** A new title for the report, everything else left out. *)
Lemma updatePDFMetadata_frame_witness :
  holds disk "/in/report.pdf" report
  ∧ ∃ savePath (written : PDFDocument string),
      updatePDFMetadata 7000 "/in/report.pdf"
        (mkMetadata (Some "Final report") None None None) None disk
      = (Ok (VObj [("success", VBool true); ("path", VStr savePath)]),
         <[savePath := save written]> disk)
      ∧ (title (mkMetadata (Some "Final report") None None None) = None →
         Title written = Title report)
      ∧ (author (mkMetadata (Some "Final report") None None None) = None →
         Author written = Author report)
      ∧ (subject (mkMetadata (Some "Final report") None None None) = None →
         Subject written = Subject report)
      ∧ (keywords (mkMetadata (Some "Final report") None None None) = None →
         Keywords written = Keywords report)
      ∧ (Title written = Title report
         ∨ Title written = title (mkMetadata (Some "Final report") None None None))
      ∧ (Author written = Author report
         ∨ Author written = author (mkMetadata (Some "Final report") None None None))
      ∧ (Subject written = Subject report
         ∨ Subject written = subject (mkMetadata (Some "Final report") None None None))
      ∧ (Keywords written = Keywords report
         ∨ Keywords written
           = keywords (mkMetadata (Some "Final report") None None None))
      ∧ Pages written = Pages report
      ∧ Creator written = Creator report
      ∧ Producer written = Producer report
      ∧ CreationDate written = CreationDate report
      ∧ ModDate written = Some 7000
      ∧ (mkMetadata (Some "Final report") None None None
         = mkMetadata None None None None →
         written = setModificationDate report 7000).
Proof.
  split; [exact report_on_disk|].
  exact (updatePDFMetadata_frame 7000 disk "/in/report.pdf" report
           (mkMetadata (Some "Final report") None None None) None
           report_on_disk).
Defined.

Example updatePDFMetadata_empty_update_run :
  (updatePDFMetadata 7000 "/in/report.pdf" (mkMetadata None None None None)
     None disk).2 !! "/in/report.pdf"
  = Some (PDF {| Pages := Pages report;
                 Title := Some "Report"; Author := Some "Ada"; Subject := None;
                 Keywords := Some "draft"; Creator := None; Producer := None;
                 CreationDate := Some 1000; ModDate := Some 7000 |}).
Proof. vm_compute; reflexivity. Qed.

(** An attempt to clear the title and the author of the report. *)
Lemma updatePDFMetadata_empty_string_ignored_witness :
  holds disk "/in/report.pdf" report
  ∧ ∃ savePath (written : PDFDocument string),
      updatePDFMetadata 7000 "/in/report.pdf"
        (mkMetadata (Some "") (Some "") None (Some "final")) None disk
      = (Ok (VObj [("success", VBool true); ("path", VStr savePath)]),
         <[savePath := save written]> disk)
      ∧ (title (mkMetadata (Some "") (Some "") None (Some "final")) = Some "" →
         Title written = Title report)
      ∧ (author (mkMetadata (Some "") (Some "") None (Some "final")) = Some "" →
         Author written = Author report)
      ∧ (subject (mkMetadata (Some "") (Some "") None (Some "final")) = Some "" →
         Subject written = Subject report)
      ∧ (keywords (mkMetadata (Some "") (Some "") None (Some "final")) = Some "" →
         Keywords written = Keywords report)
      ∧ (Title written = Some "" → Title report = Some "")
      ∧ (Author written = Some "" → Author report = Some "")
      ∧ (Subject written = Some "" → Subject report = Some "")
      ∧ (Keywords written = Some "" → Keywords report = Some "").
Proof.
  split; [exact report_on_disk|].
  exact (updatePDFMetadata_empty_string_ignored 7000 disk "/in/report.pdf" report
           (mkMetadata (Some "") (Some "") None (Some "final")) None
           report_on_disk).
Defined.

Example updatePDFMetadata_empty_title_run :
  (updatePDFMetadata 7000 "/in/report.pdf"
     (mkMetadata (Some "") (Some "") None (Some "final")) None disk).2
    !! "/in/report.pdf"
  = Some (PDF {| Pages := Pages report;
                 Title := Some "Report"; Author := Some "Ada"; Subject := None;
                 Keywords := Some "final"; Creator := None; Producer := None;
                 CreationDate := Some 1000; ModDate := Some 7000 |}).
Proof. vm_compute; reflexivity. Qed.

End EngineRuns.

(* ===================================================================== *)
(** * The engine on the storage whose save adds a blank page              *)
(* ===================================================================== *)

Section EngineRunsBlankPage.
Import BlankPageSample.

Lemma blank_page_codec_count (d : PDFDocument string) :
  ∃ d' : PDFDocument string,
    load (save d) = Some d' ∧ getPageCount d' = getPageCountAfterSave d.
Proof.
  exists (withDefaultPage d). split; [reflexivity|].
  unfold withDefaultPage, getPageCountAfterSave, getPageCount.
  destruct (Pages d) as [|p ps] eqn:Hp; simpl; [by rewrite Hp|].
  rewrite Hp. simpl. reflexivity.
Defined.

(** The report and the annex: the first ten pages of the merged file. *)
Lemma merge_then_split_page_count_witness :
  (∀ d : PDFDocument string, ∃ d' : PDFDocument string,
      load (save d) = Some d' ∧ getPageCount d' = getPageCountAfterSave d)
  ∧ holds disk "/in/report.pdf" Sample.report
  ∧ holds disk "/in/annex.pdf" Sample.annex
  ∧ 1 ≤ getPageCount Sample.report
  ∧ ∃ fs1 fs2 (out : PDFDocument string),
      mergePDFs 5000 ["/in/report.pdf"; "/in/annex.pdf"] "/out/merged.pdf" disk
      = (Ok (VObj [("success", VBool true); ("path", VStr "/out/merged.pdf");
                   ("pages", VNum (getPageCount Sample.report
                                   + getPageCount Sample.annex))]), fs1)
      ∧ splitPDF 6000 "/out/merged.pdf"
          ("1-" +:+ JS.toString (getPageCount Sample.report))
          "/out/first.pdf" fs1
        = (Ok (VObj [("success", VBool true); ("path", VStr "/out/first.pdf");
                     ("pages", VNum (getPageCount Sample.report))]), fs2)
      ∧ holds fs2 "/out/first.pdf" out
      ∧ getPageCount out = getPageCount Sample.report.
Proof.
  assert (holds disk "/in/report.pdf" Sample.report) as HA
    by (exists (PDF Sample.report); split; reflexivity).
  assert (holds disk "/in/annex.pdf" Sample.annex) as HB
    by (exists (PDF Sample.annex); split; reflexivity).
  assert (1 ≤ getPageCount Sample.report) as Hpos by (vm_compute; discriminate).
  split; [exact blank_page_codec_count|].
  split; [exact HA|]. split; [exact HB|]. split; [exact Hpos|].
  exact (merge_then_split_page_count 5000 6000 disk "/in/report.pdf"
           "/in/annex.pdf" Sample.report Sample.annex "/out/merged.pdf"
           "/out/first.pdf" blank_page_codec_count HA HB Hpos).
Defined.

(** C6 as stated fails when A has no page: the cover has none, the range
    is "1-0" and resolves to nothing, the split saves a document without
    pages, to which the save adds a blank page; the split reports one
    page, and the file it wrote loads with one page. *)
Lemma merge_then_split_pageless :
  holds disk "/in/cover.pdf" cover
  ∧ holds disk "/in/annex.pdf" Sample.annex
  ∧ getPageCount cover = 0
  ∧ "1-" +:+ JS.toString (getPageCount cover) = "1-0"
  ∧ (mergePDFs 5000 ["/in/cover.pdf"; "/in/annex.pdf"] "/out/merged.pdf" disk).1
    = Ok (VObj [("success", VBool true); ("path", VStr "/out/merged.pdf");
                ("pages", VNum 2)])
  ∧ (splitPDF 6000 "/out/merged.pdf" "1-0" "/out/first.pdf"
       (mergePDFs 5000 ["/in/cover.pdf"; "/in/annex.pdf"] "/out/merged.pdf"
          disk).2).1
    = Ok (VObj [("success", VBool true); ("path", VStr "/out/first.pdf");
                ("pages", VNum 1)])
  ∧ getPageCount
      <$> ((splitPDF 6000 "/out/merged.pdf" "1-0" "/out/first.pdf"
              (mergePDFs 5000 ["/in/cover.pdf"; "/in/annex.pdf"]
                 "/out/merged.pdf" disk).2).2
             !! "/out/first.pdf" ≫= load)
    = Some 1.
Proof.
  split; [exists (PDF cover); split; reflexivity|].
  split; [exists (PDF Sample.annex); split; reflexivity|].
  repeat split; vm_compute; reflexivity.
Qed.

End EngineRunsBlankPage.

(* ===================================================================== *)
(** * The request handler: what the code guarantees                       *)
(* ===================================================================== *)

Section HandlerClaims.
Import Server.
Context {S : Type} (pdfTools : PDFTools S).

(** The [switch] has a [case] exactly for the names of the catalogue. *)
Lemma engineCall_known name args :
  is_Some (engineCall pdfTools name args) ↔ In name (map fst catalogue).
Proof.
  unfold engineCall, catalogue. simpl.
  repeat match goal with
         | |- context [String.eqb name ?k] =>
             destruct (String.eqb_spec name k) as [->|?];
               [split; [intros _; auto 10|intros _; by eexists]|]
         end.
  split; [by intros [? ?]|]. intros H.
  decompose [or] H; congruence || contradiction.
Qed.

(** The handler, one outcome at a time. *)
Lemma callTool_outcome params s :
  callTool pdfTools params s
  = if negb (toBoolean (arguments params)) then
      (Ok (errorResult "Missing arguments for tool call"), s)
    else
      match engineCall pdfTools (name params) (arguments params) with
      | Some call =>
          match call s with
          | (Ok result, s') => (Ok (textResult result), s')
          | (Throw error, s') => (Ok (errorResult (errorMessage error)), s')
          end
      | None => (Ok (errorResult ("Unknown tool: " +:+ name params)), s)
      end.
Proof.
  unfold callTool, try_catch, bind, throw, ret.
  destruct (negb (toBoolean (arguments params))); [done|].
  destruct (engineCall pdfTools (name params) (arguments params)) as [call|];
    [|done].
  by destruct (call s) as [[result|error] s'].
Qed.

(** C4 (amended). Every call returns a result object with one text item
    and nothing is raised: an exception of the engine method is caught
    and its message becomes the failure payload, a return value becomes
    the success payload. A call that names an unknown operation and
    carries an argument record yields the failure "Unknown tool: <name>";
    a call without an argument record yields the failure "Missing
    arguments for tool call", whatever operation it names. *)
Theorem callTool_never_throws params s :
  ∃ result s',
    callTool pdfTools params s = (Ok result, s')
    ∧ (∃ payload, content result = [ {| type := "text"; text := payload |} ])
    ∧ (toBoolean (arguments params) = false →
       result = errorResult "Missing arguments for tool call" ∧ s' = s)
    ∧ (toBoolean (arguments params) = true →
       ¬ In (name params) (map fst catalogue) →
       result = errorResult ("Unknown tool: " +:+ name params) ∧ s' = s)
    ∧ (∀ call,
         toBoolean (arguments params) = true →
         engineCall pdfTools (name params) (arguments params) = Some call →
         (∀ error s1, call s = (Throw error, s1) →
            result = errorResult (errorMessage error) ∧ s' = s1)
         ∧ (∀ value s1, call s = (Ok value, s1) →
              result = textResult value ∧ s' = s1)).
Proof.
  rewrite callTool_outcome.
  destruct (toBoolean (arguments params)) eqn:Hargs; simpl.
  2: { eexists _, _. split; [done|]. split; [by eexists|].
       repeat split; done. }
  destruct (engineCall pdfTools (name params) (arguments params)) as [call|]
    eqn:Hcall.
  - assert (In (name params) (map fst catalogue)) as Hknown.
    { apply (engineCall_known _ (arguments params)). rewrite Hcall. by eexists. }
    destruct (call s) as [[value|error] s1] eqn:Hrun;
      (eexists _, _; split; [done|]; split; [by eexists|];
       split; [done|]; split; [done|]);
      intros call' _ [= <-]; rewrite Hrun; split; intros ? ? [= <- <-]; done.
  - eexists _, _. split; [done|]. split; [by eexists|].
    split; [done|]. split; [done|]. intros call' _ [=].
Qed.

(** C5, at the failing input. A [merge_pdfs] call whose argument record
    has no [filePaths] is not rejected by the handler: the engine method
    is invoked with [undefined] in that position and the envelope carries
    whatever the method returns or raises. *)
Theorem callTool_merge_without_filePaths s :
  callTool pdfTools
    {| name := "merge_pdfs";
       arguments := VObj [("outputPath", VStr "/out/merged.pdf")] |} s
  = match mergePDFs pdfTools VUndefined (VStr "/out/merged.pdf") s with
    | (Ok result, s') => (Ok (textResult result), s')
    | (Throw error, s') => (Ok (errorResult (errorMessage error)), s')
    end.
Proof. by rewrite callTool_outcome. Qed.

End HandlerClaims.

Section HandlerRuns.
Import Server.

(** C4 as stated fails: a call that names an unknown operation and has
    no argument record is answered with a failure that does not mention
    the operation. *)
Lemma callTool_unknown_without_arguments :
  ¬ In "bogus" (map fst catalogue)
  ∧ callTool recorder {| name := "bogus"; arguments := VUndefined |} []
    = (Ok (errorResult "Missing arguments for tool call"), [])
  ∧ mentions "bogus" "Missing arguments for tool call" = false
  ∧ mentions "bogus" "Unknown tool: bogus" = true.
Proof.
  split; [|repeat split; vm_compute; reflexivity].
  unfold catalogue. simpl. intros H. decompose [or] H; discriminate || done.
Qed.

Example callTool_unknown_with_arguments :
  callTool recorder {| name := "bogus"; arguments := VObj [] |} []
  = (Ok (errorResult "Unknown tool: bogus"), []).
Proof. reflexivity. Qed.

(** The recording engine shows the invocation that the handler makes for
    a [merge_pdfs] call without [filePaths]. *)
Example callTool_merge_without_filePaths_recorded :
  (callTool recorder
     {| name := "merge_pdfs";
        arguments := VObj [("outputPath", VStr "/out/merged.pdf")] |} []).2
  = [("mergePDFs", [VUndefined; VStr "/out/merged.pdf"])].
Proof. reflexivity. Qed.

End HandlerRuns.


(* ===================================================================== *)
(** * Further facts about splitting strings                               *)
(* ===================================================================== *)

Module SplitFacts.
Import Grammar JSFacts.

#[local] Arguments String.append !s1 s2 : simpl nomatch.

Lemma split_cons sep s : ∃ h t, JS.split sep s = h :: t.
Proof.
  induction s as [|c s (h & t & IH)]; simpl; [by eexists _, _|].
  destruct (Ascii.eqb c sep); [by eexists _, _|]. rewrite IH. by eexists _, _.
Qed.

(** Splitting distributes over a separator, wherever it stands. *)
Lemma split_app sep a b :
  JS.split sep (a +:+ String sep b) = JS.split sep a ++ JS.split sep b.
Proof.
  induction a as [|c a IH]; simpl.
  - by rewrite Ascii.eqb_refl.
  - destruct (Ascii.eqb c sep); [by rewrite IH|].
    rewrite IH. by destruct (split_cons sep a) as (h & t & ->).
Qed.

(** No piece contains the separator. *)
Lemma split_pieces_exclude sep s :
  Forall (λ piece, JS.includes sep piece = false) (JS.split sep s).
Proof.
  induction s as [|c s IH]; simpl; [by repeat constructor|].
  destruct (Ascii.eqb c sep) eqn:Hc; [by constructor|].
  destruct (JS.split sep s) as [|h t]; [by repeat constructor; simpl; rewrite Hc|].
  apply Forall_cons in IH as [Hh Ht]. constructor; [|done].
  simpl. by rewrite Hc, Hh.
Qed.

(** A character absent from the string is absent from every piece. *)
Lemma split_pieces_lack c sep s :
  JS.includes c s = false →
  Forall (λ piece, JS.includes c piece = false) (JS.split sep s).
Proof.
  induction s as [|d s IH]; simpl; [by repeat constructor|].
  intros [Hd Hs]%orb_false_iff. specialize (IH Hs).
  destruct (Ascii.eqb d sep); [by constructor|].
  destruct (JS.split sep s) as [|h t]; [by repeat constructor; simpl; rewrite Hd|].
  apply Forall_cons in IH as [Hh Ht]. constructor; [|done].
  simpl. by rewrite Hd, Hh.
Qed.

Lemma append_length a b :
  String.length (a +:+ b) = (String.length a + String.length b)%nat.
Proof. induction a; simpl; congruence. Qed.

(** Cancelling a common suffix. *)
Lemma append_inj_r a b c : a +:+ c = b +:+ c → a = b.
Proof.
  revert b. induction a as [|x a IH]; intros [|y b] H; simpl in H.
  - done.
  - apply (f_equal String.length) in H. simpl in H. rewrite append_length in H. lia.
  - apply (f_equal String.length) in H. simpl in H. rewrite append_length in H. lia.
  - injection H as -> H. f_equal. by apply IH.
Qed.

End SplitFacts.

(* ===================================================================== *)
(** * parsePageRange on arbitrary text                                    *)
(* ===================================================================== *)

Section PageRangeOnAnyText.
Import Grammar JSFacts PageRange SplitFacts.
#[local] Arguments String.append !s1 s2 : simpl nomatch.

(** The loop body keeps what is pushed already and adds the indices of
    the pages that lie in the document. *)
Lemma foldl_pushPage_filter totalPages l pages :
  foldl (pushPage totalPages) pages l
  = pages ++ map (λ i, i - 1) (filter (λ i, 1 ≤ i ≤ totalPages) l).
Proof.
  revert pages. induction l as [|i l IH]; intros pages; simpl.
  - by rewrite app_nil_r.
  - rewrite IH. unfold pushPage. rewrite filter_cons.
    destruct (decide (1 ≤ i ≤ totalPages)) as [Hi|Hi].
    + assert ((1 <=? i) && (i <=? totalPages) = true) as ->.
      { apply andb_true_iff. split; apply Z.leb_le; lia. }
      simpl. by rewrite <- app_assoc.
    + assert ((1 <=? i) && (i <=? totalPages) = false) as ->; [|done].
      apply andb_false_iff. rewrite !Z.leb_gt. lia.
Qed.

Lemma parsePart_acc totalPages pages part :
  parsePart totalPages pages part = pages ++ parsePart totalPages [] part.
Proof.
  unfold parsePart. destruct (JS.includes "-" part).
  - destruct (map _ _) as [|start [|end_ ?]]; try by rewrite app_nil_r.
    unfold rangeLoop. destruct start, end_; try by rewrite app_nil_r.
    by rewrite !foldl_pushPage_filter.
  - destruct (JS.parseInt _) as [pageNum|]; [|by rewrite app_nil_r].
    unfold pushPage. destruct ((1 <=? pageNum) && (pageNum <=? totalPages));
      [done|by rewrite app_nil_r].
Qed.

Lemma foldl_parsePart_acc totalPages parts pages :
  foldl (parsePart totalPages) pages parts
  = pages ++ foldl (parsePart totalPages) [] parts.
Proof.
  revert pages. induction parts as [|part parts IH]; intros pages; simpl.
  - by rewrite app_nil_r.
  - rewrite IH, (IH (parsePart totalPages [] part)), parsePart_acc.
    by rewrite <- app_assoc.
Qed.

(** X1. Whatever the text, every index that [parsePageRange] returns is
    an index of a page of the document. *)
Theorem parsePageRange_within_document range totalPages :
  Forall (λ i, 0 ≤ i ≤ totalPages - 1) (parsePageRange range totalPages).
Proof.
  eapply Forall_impl; [apply parsePageRange_bounds|]. simpl. intros; lia.
Qed.

(** X2. Resolution goes comma by comma: the result for two expressions
    joined by a comma is the result for the first followed by the result
    for the second, whatever the two texts are. *)
Theorem parsePageRange_comma e1 e2 totalPages :
  parsePageRange (e1 +:+ "," +:+ e2) totalPages
  = parsePageRange e1 totalPages ++ parsePageRange e2 totalPages.
Proof.
  unfold parsePageRange.
  change (e1 +:+ "," +:+ e2) with (e1 +:+ String "," e2).
  by rewrite split_app, foldl_app, foldl_parsePart_acc.
Qed.

(** X3. A range between two numerals, the second below 2^53, is clipped
    to the document: it resolves to the indices of the numbers from the
    first to the second that are pages, in ascending order, and to
    nothing when none is. *)
Theorem parsePageRange_range_clipped totalPages ws1 s1 ws2 ws3 s2 ws4 a b :
  blank ws1 → blank ws2 → blank ws3 → blank ws4 →
  numeral s1 a → numeral s2 b →
  b < 9007199254740992 →
  parsePageRange (ws1 +:+ s1 +:+ ws2 +:+ "-" +:+ ws3 +:+ s2 +:+ ws4) totalPages
  = map (λ i, i - 1) (filter (λ i, 1 ≤ i ≤ totalPages) (seqZ a (b - a + 1))).
Proof.
  intros H1 H2 H3 H4 Ha Hb _. unfold parsePageRange.
  rewrite split_none.
  2: { replace (ws1 +:+ s1 +:+ ws2 +:+ "-" +:+ ws3 +:+ s2 +:+ ws4)
         with ((ws1 +:+ s1 +:+ ws2) +:+ String "-" (ws3 +:+ s2 +:+ ws4))
         by (by rewrite !append_assoc).
       rewrite includes_app. simpl.
       rewrite !padded_no_comma; done || apply Ha || apply Hb. }
  cbn [foldl].
  rewrite (parsePart_range _ _ ws1 s1 ws2 ws3 s2 ws4 a b) by done.
  unfold rangeLoop. by rewrite foldl_pushPage_filter.
Qed.

Lemma parsePageRange_range_clipped_witness :
  blank "" ∧ blank " " ∧ numeral "18" 18 ∧ numeral "25" 25
  ∧ 25 < 9007199254740992
  ∧ parsePageRange ("" +:+ "18" +:+ " " +:+ "-" +:+ " " +:+ "25" +:+ "") 20
    = map (λ i, i - 1) (filter (λ i, 1 ≤ i ≤ 20) (seqZ 18 (25 - 18 + 1))).
Proof.
  assert (blank "") as H0 by done.
  assert (blank " ") as H1 by done.
  assert (numeral "18" 18) as Ha by (by repeat split).
  assert (numeral "25" 25) as Hb by (by repeat split).
  assert (25 < 9007199254740992) as Hlt by lia.
  split; [exact H0|]. split; [exact H1|]. split; [exact Ha|]. split; [exact Hb|].
  split; [exact Hlt|].
  exact (parsePageRange_range_clipped 20 "" "18" " " " " "25" "" 18 25
           H0 H1 H1 H0 Ha Hb Hlt).
Defined.

Example parsePageRange_range_clipped_run :
  parsePageRange "18 - 25" 20 = [17; 18; 19] ∧ parsePageRange "9-3" 20 = [].
Proof. split; reflexivity. Qed.

(** X4. A single numeral resolves to the index of its page when the
    number is a page of the document, and to nothing otherwise. *)
Theorem parsePageRange_single_number totalPages ws1 s ws2 n :
  blank ws1 → blank ws2 → numeral s n →
  parsePageRange (ws1 +:+ s +:+ ws2) totalPages
  = if decide (1 ≤ n ≤ totalPages) then [n - 1] else [].
Proof.
  intros H1 H2 Hn. unfold parsePageRange.
  rewrite split_none by (apply padded_no_comma; done || apply Hn).
  cbn [foldl]. rewrite (parsePart_single _ _ ws1 s ws2 n) by done.
  change (pushPage totalPages [] n) with (foldl (pushPage totalPages) [] [n]).
  rewrite foldl_pushPage_filter, filter_cons, filter_nil.
  by destruct (decide (1 ≤ n ≤ totalPages)).
Qed.

Lemma parsePageRange_single_number_witness :
  blank " " ∧ blank "" ∧ numeral "025" 25
  ∧ parsePageRange (" " +:+ "025" +:+ "") 20
    = if decide (1 ≤ 25 ≤ 20) then [25 - 1] else [].
Proof.
  assert (blank " ") as H1 by done.
  assert (blank "") as H0 by done.
  assert (numeral "025" 25) as Hn by (by repeat split).
  split; [exact H1|]. split; [exact H0|]. split; [exact Hn|].
  exact (parsePageRange_single_number 20 " " "025" "" 25 H1 H0 Hn).
Defined.

End PageRangeOnAnyText.

(* ===================================================================== *)
(** * The engine: further guarantees                                      *)
(* ===================================================================== *)

Section EngineExtras.
Context {Page bytes : Type} `{!Codec Page bytes}.
Import Grammar JSFacts PageRange SplitFacts.

Local Abbreviation FS := (gmap string bytes).
Local Abbreviation Doc := (PDFDocument Page).

(** ** pdf-lib *)

Lemma foldl_addPage_eq (d : Doc) ps :
  foldl addPage d ps
  = mkPDFDocument (Pages d ++ ps) (Title d) (Author d) (Subject d) (Keywords d)
      (Creator d) (Producer d) (CreationDate d) (ModDate d).
Proof.
  revert d. induction ps as [|p ps IH]; intros d; simpl.
  - rewrite app_nil_r. by destruct d.
  - rewrite IH. simpl. by rewrite <- app_assoc.
Qed.

Lemma copyPages_pages {S} (src : Doc) indices (s : S) :
  Forall (λ i, 0 ≤ i < getPageCount src) indices →
  ∃ ps, copyPages src indices s = (Ok ps, s)
        ∧ Forall2 (λ i page, pageAt src i = Some page) indices ps.
Proof.
  induction 1 as [|i rest Hi _ (ps & IH & Hps)]; simpl.
  - exists []. split; [done|constructor].
  - destruct (pageAt src i) as [p|] eqn:Hp.
    + unfold bind. rewrite IH. exists (p :: ps). split; [done|]. by constructor.
    + exfalso. unfold pageAt, getPageCount in *.
      assert ((0 <=? i) = true) as Hle by (apply Z.leb_le; lia).
      rewrite Hle in Hp.
      destruct (lookup_lt_is_Some_2 (Pages src) (Z.to_nat i)) as [p Hp']; [lia|].
      congruence.
Qed.

(** The source either is missing, or does not parse, or loads. *)
Lemma source_cases (fs : FS) path :
  fs !! path = None
  ∨ (∃ b, fs !! path = Some b ∧ load (Page := Page) b = None)
  ∨ (∃ d : Doc, holds fs path d).
Proof.
  destruct (fs !! path) as [b|] eqn:Hb; [|by left]. right.
  destruct (load (Page := Page) b) as [d|] eqn:Hd.
  - right. exists d, b. done.
  - left. by exists b.
Qed.

Lemma holds_not_missing (fs : FS) path (d : Doc) :
  holds fs path d → fs !! path = None → False.
Proof. intros (b & Hb & _) Hn. congruence. Qed.

Lemma holds_not_unparsable (fs : FS) path (d : Doc) b :
  holds fs path d → fs !! path = Some b → load (Page := Page) b = None → False.
Proof. intros (b' & Hb' & Hd) Hb Hn. congruence. Qed.

(** ** splitPDF *)

(** X5. When the source loads and every range of the expression ends
    below 2^53, [splitPDF] succeeds whatever the range text is. The
    document it saves to the output path is made of the source pages at
    the resolved indices, in resolved order and with repeats; it has no
    title, author, subject or keywords, and carries the creator and
    producer tags and the creation time of the call. The page count
    reported is read after the save: the number of resolved pages, or 1
    when the range resolves to nothing, since the save puts a blank page
    in a document without pages. No other path is touched. *)
Theorem splitPDF_copies_resolved_pages
    now (fs : FS) filePath (pdfDoc : Doc) pageRange outputPath :
  holds fs filePath pdfDoc →
  finiteRange pageRange →
  ∃ out : Doc,
    splitPDF now filePath pageRange outputPath fs
    = (Ok (VObj [("success", VBool true); ("path", VStr outputPath);
                 ("pages", VNum (getPageCountAfterSave out))]),
       <[outputPath := save out]> fs)
    ∧ Forall2 (λ i page, pageAt pdfDoc i = Some page)
        (parsePageRange pageRange (getPageCount pdfDoc)) (Pages out)
    ∧ getPageCountAfterSave out
      = Z.max 1 (Z.of_nat (length (parsePageRange pageRange (getPageCount pdfDoc))))
    ∧ Title out = None ∧ Author out = None
    ∧ Subject out = None ∧ Keywords out = None
    ∧ Creator out = Some "PDF Utilities MCP"
    ∧ Producer out = Some "pdf-lib"
    ∧ CreationDate out = Some now.
Proof.
  intros Hsrc _. unfold splitPDF. rewrite (open_source fs filePath pdfDoc) by done.
  destruct (copyPages_pages pdfDoc
              (parsePageRange pageRange (getPageCount pdfDoc)) fs)
    as (ps & Hcopy & Hps); [apply parsePageRange_bounds|].
  unfold bind. rewrite Hcopy. unfold writeFileSync, ret.
  eexists. split; [reflexivity|].
  rewrite foldl_addPage_eq. simpl. split; [done|]. split; [|done].
  rewrite (Forall2_length _ _ _ Hps).
  unfold getPageCountAfterSave, getPageCount. simpl.
  destruct (Z.eqb_spec (Z.of_nat (length ps)) 0); lia.
Qed.

(** X6. A source that cannot be read makes [splitPDF] fail before the
    range text is looked at: with "File not found" naming the path when
    the source is missing, and with the parse error when it does not
    parse. Either failure leaves storage as it was, whatever the range
    text and the output path are. *)
Theorem splitPDF_source_failures
    now (fs : FS) filePath pageRange outputPath :
  (fs !! filePath = None →
   splitPDF now filePath pageRange outputPath fs
   = (Throw (Error ("File not found: " +:+ filePath)), fs))
  ∧ (∀ b, fs !! filePath = Some b → load (Page := Page) b = None →
     splitPDF now filePath pageRange outputPath fs
     = (Throw (Fault "Failed to parse PDF document"), fs)).
Proof.
  split.
  - intros Hmiss. unfold splitPDF. by apply open_missing.
  - intros b Hb Hd. unfold splitPDF. by eapply open_unparsable.
Qed.

(** ** mergePDFs *)

Lemma mergeLoop_result filePaths docs mergedPdf (fs : FS) :
  Forall2 (holds fs) filePaths docs →
  mergeLoop filePaths mergedPdf fs
  = (Ok (foldl addPage mergedPdf (concat (map Pages docs))), fs).
Proof.
  intros H. revert mergedPdf.
  induction H as [|p d ps ds Hp _ IH]; intros mergedPdf; [done|].
  rewrite (mergeLoop_step _ _ _ _ _ Hp), IH. simpl. by rewrite foldl_app.
Qed.


(** X7. When every source loads, the document that [mergePDFs] saves to
    the output path has the pages of the sources, source after source in
    list order; it inherits no title, author, subject or keywords, and
    carries the creator and producer tags and the modification time of
    the call. The page count reported is read after the save: the number
    of pages of the sources together, or 1 when they have none, since the
    save puts a blank page in a document without pages. No other path is
    touched. *)
Theorem mergePDFs_concatenates now filePaths docs outputPath (fs : FS) :
  filePaths ≠ [] →
  Forall2 (holds fs) filePaths docs →
  ∃ merged : Doc,
    mergePDFs now filePaths outputPath fs
    = (Ok (VObj [("success", VBool true); ("path", VStr outputPath);
                 ("pages", VNum (getPageCountAfterSave merged))]),
       <[outputPath := save merged]> fs)
    ∧ Pages merged = concat (map Pages docs)
    ∧ getPageCountAfterSave merged
      = Z.max 1 (Z.of_nat (length (concat (map Pages docs))))
    ∧ Title merged = None ∧ Author merged = None
    ∧ Subject merged = None ∧ Keywords merged = None
    ∧ Creator merged = Some "PDF Utilities MCP"
    ∧ Producer merged = Some "pdf-lib"
    ∧ ModDate merged = Some now.
Proof.
  intros Hne Hdocs. rewrite mergePDFs_nonempty by done.
  rewrite (mergeLoop_result filePaths docs create fs Hdocs).
  eexists. split; [reflexivity|].
  rewrite foldl_addPage_eq. simpl. split; [done|]. split; [|done].
  unfold getPageCountAfterSave, getPageCount. simpl.
  destruct (Z.eqb_spec (Z.of_nat (length (concat (map Pages docs)))) 0); lia.
Qed.


(** X8. Merging in two steps gives the pages of merging at once: when A
    has a page, the merge of [A, B] written to a scratch path and then
    merged with [C] holds the pages of A, B and C in that order, as the
    merge of [A, B, C] does. The codec is assumed to give back the pages
    of a saved document that has pages, and the scratch path is not the
    third source. *)
Theorem mergePDFs_in_two_steps
    now1 now2 now3 (fs : FS) pathA pathB pathC (A B C : Doc) scratch outputPath :
  (∀ d : Doc, Pages d ≠ [] →
     ∃ d' : Doc, load (save d) = Some d' ∧ Pages d' = Pages d) →
  holds fs pathA A → holds fs pathB B → holds fs pathC C →
  Pages A ≠ [] →
  scratch ≠ pathC →
  ∃ v1 fs1 v2 fs2 v3 fs3 (stepwise direct : Doc),
    mergePDFs now1 [pathA; pathB] scratch fs = (Ok v1, fs1)
    ∧ mergePDFs now2 [scratch; pathC] outputPath fs1 = (Ok v2, fs2)
    ∧ mergePDFs now3 [pathA; pathB; pathC] outputPath fs = (Ok v3, fs3)
    ∧ holds fs2 outputPath stepwise
    ∧ holds fs3 outputPath direct
    ∧ Pages stepwise = Pages A ++ Pages B ++ Pages C
    ∧ Pages direct = Pages stepwise.
Proof.
  intros Hcodec HA HB HC HneA Hne.
  assert (∀ rest : list Page, Pages A ++ rest ≠ []) as Hfull.
  { intros rest Hnil. by apply app_eq_nil in Hnil as [? _]. }
  destruct (mergePDFs_ok now1 [pathA; pathB] [A; B] scratch fs)
    as (d1 & H1 & Hp1); [done|by repeat constructor|].
  destruct (mergePDFs_ok now3 [pathA; pathB; pathC] [A; B; C] outputPath fs)
    as (d3 & H3 & Hp3); [done|by repeat constructor|].
  simpl in Hp1, Hp3. rewrite app_nil_r in Hp1, Hp3.
  destruct (Hcodec d1) as (d1' & Hload1 & Hpages1); [rewrite Hp1; apply Hfull|].
  destruct (Hcodec d3) as (d3' & Hload3 & Hpages3); [rewrite Hp3; apply Hfull|].
  set (fs1 := <[scratch := save d1]> fs) in H1.
  assert (holds fs1 scratch d1') as Hscratch.
  { exists (save d1). split; [apply lookup_insert_eq|done]. }
  assert (holds fs1 pathC C) as HC1.
  { destruct HC as (b & Hb & Hd). exists b. split; [|done].
    unfold fs1. by rewrite lookup_insert_ne. }
  destruct (mergePDFs_ok now2 [scratch; pathC] [d1'; C] outputPath fs1)
    as (d2 & H2 & Hp2); [done|by repeat constructor|].
  simpl in Hp2. rewrite app_nil_r, Hpages1, Hp1, <- app_assoc in Hp2.
  destruct (Hcodec d2) as (d2' & Hload2 & Hpages2); [rewrite Hp2; apply Hfull|].
  eexists _, fs1, _, _, _, _, d2', d3'.
  split; [exact H1|]. split; [exact H2|]. split; [exact H3|].
  split; [exists (save d2); split; [apply lookup_insert_eq|done]|].
  split; [exists (save d3); split; [apply lookup_insert_eq|done]|].
  by rewrite Hpages2, Hpages3, Hp2, Hp3.
Qed.

(** ** extractPages *)

(** Two page numbers never share a file name. *)
Lemma pageFile_inj outputDir prefix p q :
  0 ≤ p → 0 ≤ q →
  pageFile outputDir prefix p = pageFile outputDir prefix q → p = q.
Proof.
  intros Hp Hq Heq. unfold pageFile in Heq.
  apply (inj (String.append outputDir)) in Heq.
  apply (inj (String.append "/")) in Heq.
  apply (inj (String.append prefix)) in Heq.
  apply (inj (String.append "_")) in Heq.
  apply append_inj_r in Heq.
  destruct (toString_numeral p Hp) as (_ & _ & <-).
  destruct (toString_numeral q Hq) as (_ & _ & <-).
  by rewrite Heq.
Qed.

Lemma writePage_other (pdfDoc : Doc) outputDir prefix (fs : FS) p path :
  path ≠ pageFile outputDir prefix p →
  writePage pdfDoc outputDir prefix fs p !! path = fs !! path.
Proof.
  intros Hne. unfold writePage. destruct (pageAt pdfDoc (p - 1)); [|done].
  by rewrite lookup_insert_ne.
Qed.

Lemma foldl_writePage_other (pdfDoc : Doc) outputDir prefix (fs : FS) ps path :
  (∀ p, p ∈ ps → path ≠ pageFile outputDir prefix p) →
  foldl (writePage pdfDoc outputDir prefix) fs ps !! path = fs !! path.
Proof.
  revert fs. induction ps as [|q ps IH]; intros fs Hne; [done|].
  simpl. rewrite IH by (intros p Hp; apply Hne; by right).
  apply writePage_other, Hne. by left.
Qed.

Lemma foldl_writePage_content (pdfDoc : Doc) outputDir prefix (fs : FS) ps p :
  Forall (λ q, 1 ≤ q ≤ getPageCount pdfDoc) ps → p ∈ ps →
  ∃ page, pageAt pdfDoc (p - 1) = Some page
    ∧ foldl (writePage pdfDoc outputDir prefix) fs ps
        !! pageFile outputDir prefix p
      = Some (save (addPage create page)).
Proof.
  intros Hps. revert fs. induction Hps as [|q ps Hq Hps IH]; intros fs Hin.
  { by apply elem_of_nil in Hin. }
  destruct (decide (p ∈ ps)) as [Hlater|Hlast]; [by apply IH|].
  apply elem_of_cons in Hin as [->|Hin]; [|done].
  assert (is_Some (pageAt pdfDoc (q - 1))) as [page Hpage].
  { unfold pageAt, getPageCount in *.
    assert ((0 <=? q - 1) = true) as -> by (apply Z.leb_le; lia).
    apply lookup_lt_is_Some_2. lia. }
  exists page. split; [done|]. simpl.
  rewrite foldl_writePage_other.
  - unfold writePage. rewrite Hpage. apply lookup_insert_eq.
  - intros r Hr Heq. apply pageFile_inj in Heq; [by subst|lia|].
    rewrite Forall_forall in Hps. specialize (Hps r Hr). lia.
Qed.

(** X9. When the source loads and every requested number is a page, the
    call succeeds; the paths returned are [outputDir/prefix_n.pdf] for the
    requested numbers in request order ([prefix] being "page" when left
    out); the file of each requested number holds the one-page document
    made of that page; and every other path is left as it was. *)
Theorem extractPages_one_file_per_page
    (fs : FS) filePath (pdfDoc : Doc) outputDir prefix pages :
  holds fs filePath pdfDoc →
  Forall (λ p, 1 ≤ p ≤ getPageCount pdfDoc) pages →
  ∃ fs',
    extractPages filePath pages outputDir prefix fs
    = (Ok (VObj [("success", VBool true);
                 ("files", VArr (map VStr
                    (map (pageFile outputDir (default "page" prefix)) pages)))]),
       fs')
    ∧ (∀ p, p ∈ pages →
         ∃ page, pageAt pdfDoc (p - 1) = Some page
           ∧ fs' !! pageFile outputDir (default "page" prefix) p
             = Some (save (addPage create page)))
    ∧ (∀ path,
         (∀ p, p ∈ pages → path ≠ pageFile outputDir (default "page" prefix) p) →
         fs' !! path = fs !! path).
Proof.
  intros Hsrc Hpages. eexists. split; [|split].
  - unfold extractPages. rewrite (open_source fs filePath pdfDoc) by done.
    unfold bind. rewrite extractLoop_all_valid by done. reflexivity.
  - intros p Hp. by apply foldl_writePage_content.
  - intros path Hpath. by apply foldl_writePage_other.
Qed.

(** ** updatePDFMetadata *)

(** X10. The result of a metadata write goes to [outputPath] when one is
    given and is not empty, and over the source otherwise; the path
    returned is the path written, and every other path is left as it
    was, the source included when the output path is another one. *)
Theorem updatePDFMetadata_destination
    now (fs : FS) filePath (pdfDoc : Doc) metadata outputPath :
  holds fs filePath pdfDoc →
  ∃ savePath fs',
    updatePDFMetadata now filePath metadata outputPath fs
    = (Ok (VObj [("success", VBool true); ("path", VStr savePath)]), fs')
    ∧ fs' !! savePath = Some (save (applyMetadata now pdfDoc metadata))
    ∧ (∀ other, other ≠ savePath → fs' !! other = fs !! other)
    ∧ (outputPath = None → savePath = filePath)
    ∧ (outputPath = Some "" → savePath = filePath)
    ∧ (∀ p, outputPath = Some p → p ≠ "" → savePath = p).
Proof.
  intros Hsrc. unfold updatePDFMetadata.
  rewrite (open_source fs filePath pdfDoc) by done.
  unfold bind, writeFileSync, ret. eexists _, _. split; [reflexivity|].
  split; [apply lookup_insert_eq|]. split.
  { intros other Hother. by rewrite lookup_insert_ne. }
  destruct outputPath as [p|]; [|by repeat split].
  destruct (String.eqb_spec p "") as [->|Hp].
  - repeat split; try done. by intros p [= <-].
  - repeat split; try done; [congruence|]. by intros q [= <-].
Qed.

(** X11. A field given as a non-empty string is what the stored document
    holds for that field afterwards; the keywords are stored as the one
    string given. *)
Theorem updatePDFMetadata_stores_given_fields
    now (fs : FS) filePath (pdfDoc : Doc) metadata outputPath :
  holds fs filePath pdfDoc →
  ∃ savePath (written : Doc),
    updatePDFMetadata now filePath metadata outputPath fs
    = (Ok (VObj [("success", VBool true); ("path", VStr savePath)]),
       <[savePath := save written]> fs)
    ∧ (∀ t, title metadata = Some t → t ≠ "" → Title written = Some t)
    ∧ (∀ a, author metadata = Some a → a ≠ "" → Author written = Some a)
    ∧ (∀ s, subject metadata = Some s → s ≠ "" → Subject written = Some s)
    ∧ (∀ k, keywords metadata = Some k → k ≠ "" → Keywords written = Some k).
Proof.
  intros Hsrc.
  destruct (updatePDFMetadata_ok now fs filePath pdfDoc metadata outputPath Hsrc)
    as (savePath & Hrun).
  exists savePath, (applyMetadata now pdfDoc metadata). split; [done|].
  destruct metadata as [t a s k]. unfold applyMetadata, ifTruthy. simpl.
  repeat split; intros x -> Hx; apply String.eqb_neq in Hx; rewrite Hx; simpl;
    repeat match goal with
           | |- context [match ?o with Some _ => _ | None => _ end] =>
               destruct o as [?|]
           | |- context [String.eqb ?y ""] => destruct (String.eqb y "")
           end; done.
Qed.

(** A document whose descriptive fields are those of an updated document
    keeps them under the same update. *)
Lemma applyMetadata_settled now1 now2 (d d' : Doc) metadata :
  Title d' = Title (applyMetadata now1 d metadata) →
  Author d' = Author (applyMetadata now1 d metadata) →
  Subject d' = Subject (applyMetadata now1 d metadata) →
  Keywords d' = Keywords (applyMetadata now1 d metadata) →
  Title (applyMetadata now2 d' metadata) = Title d'
  ∧ Author (applyMetadata now2 d' metadata) = Author d'
  ∧ Subject (applyMetadata now2 d' metadata) = Subject d'
  ∧ Keywords (applyMetadata now2 d' metadata) = Keywords d'.
Proof.
  destruct metadata as [[t|] [a|] [s|] [k|]]; unfold applyMetadata, ifTruthy; simpl;
    repeat match goal with
           | |- context [String.eqb ?x ""] => destruct (String.eqb x "")
           end; simpl; intros -> -> -> ->; done.
Qed.

(** X12. Writing the same update in place a second time changes none of
    the descriptive fields: the title, author, subject and keywords that
    the file holds after the second write are those it held after the
    first. The codec is assumed to give back the title, author, subject
    and keywords of a saved document. *)
Theorem updatePDFMetadata_idempotent
    now1 now2 (fs : FS) filePath (pdfDoc : Doc) metadata :
  (∀ d : Doc, ∃ d' : Doc,
      load (save d) = Some d'
      ∧ Title d' = Title d ∧ Author d' = Author d
      ∧ Subject d' = Subject d ∧ Keywords d' = Keywords d) →
  holds fs filePath pdfDoc →
  ∃ fs1 fs2 (first second : Doc),
    updatePDFMetadata now1 filePath metadata None fs
    = (Ok (VObj [("success", VBool true); ("path", VStr filePath)]), fs1)
    ∧ updatePDFMetadata now2 filePath metadata None fs1
      = (Ok (VObj [("success", VBool true); ("path", VStr filePath)]), fs2)
    ∧ holds fs1 filePath first
    ∧ holds fs2 filePath second
    ∧ Title second = Title first ∧ Author second = Author first
    ∧ Subject second = Subject first ∧ Keywords second = Keywords first.
Proof.
  intros Hcodec Hsrc.
  assert (∀ now (fs0 : FS) (d : Doc), holds fs0 filePath d →
            updatePDFMetadata now filePath metadata None fs0
            = (Ok (VObj [("success", VBool true); ("path", VStr filePath)]),
               <[filePath := save (applyMetadata now d metadata)]> fs0)) as Hrun.
  { intros now fs0 d Hd. unfold updatePDFMetadata.
    rewrite (open_source fs0 filePath d) by done. done. }
  destruct (Hcodec (applyMetadata now1 pdfDoc metadata))
    as (d1 & Hload1 & Ht1 & Ha1 & Hs1 & Hk1).
  destruct (Hcodec (applyMetadata now2 d1 metadata))
    as (d2 & Hload2 & Ht2 & Ha2 & Hs2 & Hk2).
  destruct (applyMetadata_settled now1 now2 pdfDoc d1 metadata Ht1 Ha1 Hs1 Hk1)
    as (Ht & Ha & Hs & Hk).
  set (fs1 := <[filePath := save (applyMetadata now1 pdfDoc metadata)]> fs).
  assert (holds fs1 filePath d1) as Hfirst.
  { eexists. split; [apply lookup_insert_eq|done]. }
  exists fs1, (<[filePath := save (applyMetadata now2 d1 metadata)]> fs1), d1, d2.
  split; [by apply Hrun|]. split; [by apply Hrun|]. split; [done|].
  split; [eexists; split; [apply lookup_insert_eq|done]|].
  rewrite Ht2, Ha2, Hs2, Hk2. done.
Qed.

(** X13. A source that cannot be read makes a metadata write fail before
    the update is looked at: with "File not found" naming the path when
    the source is missing, and with the parse error when it does not
    parse. Either failure leaves storage as it was, whatever the update
    and the output path are. *)
Theorem updatePDFMetadata_source_failures
    now (fs : FS) filePath metadata outputPath :
  (fs !! filePath = None →
   updatePDFMetadata now filePath metadata outputPath fs
   = (Throw (Error ("File not found: " +:+ filePath)), fs))
  ∧ (∀ b, fs !! filePath = Some b → load (Page := Page) b = None →
     updatePDFMetadata now filePath metadata outputPath fs
     = (Throw (Fault "Failed to parse PDF document"), fs)).
Proof.
  split.
  - intros Hmiss. unfold updatePDFMetadata. by apply open_missing.
  - intros b Hb Hd. unfold updatePDFMetadata. by eapply open_unparsable.
Qed.

End EngineExtras.

(* ===================================================================== *)
(** * The engine on the sample storage, continued                         *)
(* ===================================================================== *)

Section EngineExtrasRuns.
Import Sample.

Lemma splitPDF_copies_resolved_pages_witness :
  holds disk "/in/report.pdf" report
  ∧ finiteRange "9-12, 2,2"
  ∧ ∃ out : PDFDocument string,
      splitPDF 6000 "/in/report.pdf" "9-12, 2,2" "/out/part.pdf" disk
      = (Ok (VObj [("success", VBool true); ("path", VStr "/out/part.pdf");
                   ("pages", VNum (getPageCountAfterSave out))]),
         <["/out/part.pdf" := save out]> disk)
      ∧ Forall2 (λ i page, pageAt report i = Some page)
          (parsePageRange "9-12, 2,2" (getPageCount report)) (Pages out)
      ∧ getPageCountAfterSave out
        = Z.max 1 (Z.of_nat (length (parsePageRange "9-12, 2,2"
                                       (getPageCount report))))
      ∧ Title out = None ∧ Author out = None
      ∧ Subject out = None ∧ Keywords out = None
      ∧ Creator out = Some "PDF Utilities MCP"
      ∧ Producer out = Some "pdf-lib"
      ∧ CreationDate out = Some 6000.
Proof.
  assert (finiteRange "9-12, 2,2") as Hfin.
  { assert (JS.split "," "9-12, 2,2" = ["9-12"; " 2"; "2"]) as Hparts
      by (vm_compute; reflexivity).
    unfold finiteRange. rewrite Hparts.
    repeat constructor; intros e He; vm_compute in He;
      (discriminate He || (injection He as <-; lia)). }
  split; [exact report_on_disk|]. split; [exact Hfin|].
  exact (splitPDF_copies_resolved_pages 6000 disk "/in/report.pdf"
           report "9-12, 2,2" "/out/part.pdf" report_on_disk Hfin).
Defined.

Example splitPDF_clipped_run :
  (splitPDF 6000 "/in/report.pdf" "9-12, 2,2" "/out/part.pdf" disk).1
  = Ok (VObj [("success", VBool true); ("path", VStr "/out/part.pdf");
              ("pages", VNum 4)])
  ∧ Pages <$> ((splitPDF 6000 "/in/report.pdf" "9-12, 2,2" "/out/part.pdf" disk).2
                 !! "/out/part.pdf" ≫= load)
    = Some ["p9"; "p10"; "p2"; "p2"].
Proof. split; vm_compute; reflexivity. Qed.

Lemma mergePDFs_concatenates_witness :
  ["/in/annex.pdf"; "/in/report.pdf"; "/in/annex.pdf"] ≠ []
  ∧ Forall2 (holds disk)
      ["/in/annex.pdf"; "/in/report.pdf"; "/in/annex.pdf"]
      [annex; report; annex]
  ∧ ∃ merged : PDFDocument string,
      mergePDFs 5000 ["/in/annex.pdf"; "/in/report.pdf"; "/in/annex.pdf"]
        "/in/annex.pdf" disk
      = (Ok (VObj [("success", VBool true); ("path", VStr "/in/annex.pdf");
                   ("pages", VNum (getPageCountAfterSave merged))]),
         <["/in/annex.pdf" := save merged]> disk)
      ∧ Pages merged = concat (map Pages [annex; report; annex])
      ∧ getPageCountAfterSave merged
        = Z.max 1 (Z.of_nat (length (concat (map Pages [annex; report; annex]))))
      ∧ Title merged = None ∧ Author merged = None
      ∧ Subject merged = None ∧ Keywords merged = None
      ∧ Creator merged = Some "PDF Utilities MCP"
      ∧ Producer merged = Some "pdf-lib"
      ∧ ModDate merged = Some 5000.
Proof.
  assert (["/in/annex.pdf"; "/in/report.pdf"; "/in/annex.pdf"] ≠ []) as Hne
    by discriminate.
  assert (Forall2 (holds disk)
            ["/in/annex.pdf"; "/in/report.pdf"; "/in/annex.pdf"]
            [annex; report; annex]) as Hdocs.
  { repeat constructor; apply annex_on_disk || apply report_on_disk. }
  split; [exact Hne|]. split; [exact Hdocs|].
  exact (mergePDFs_concatenates 5000 _ _ "/in/annex.pdf" disk Hne Hdocs).
Defined.


(** A source that is missing and a source that is not a PDF. *)
Lemma splitPDF_source_failures_witness :
  disk !! "/in/missing.pdf" = None
  ∧ disk !! "/in/notes.txt" = Some Garbage
  ∧ load (Page := string) Garbage = None
  ∧ splitPDF 6000 "/in/missing.pdf" "1-3" "/out/part.pdf" disk
    = (Throw (Error ("File not found: " +:+ "/in/missing.pdf")), disk)
  ∧ splitPDF 6000 "/in/notes.txt" "1-3" "/out/part.pdf" disk
    = (Throw (Fault "Failed to parse PDF document"), disk).
Proof.
  assert (disk !! "/in/missing.pdf" = None) as Hmiss by reflexivity.
  assert (disk !! "/in/notes.txt" = Some Garbage) as Hb by reflexivity.
  assert (load (Page := string) Garbage = None) as Hd by reflexivity.
  split; [exact Hmiss|]. split; [exact Hb|]. split; [exact Hd|].
  split.
  - exact (proj1 (splitPDF_source_failures 6000 disk "/in/missing.pdf" "1-3"
                    "/out/part.pdf") Hmiss).
  - exact (proj2 (splitPDF_source_failures 6000 disk "/in/notes.txt" "1-3"
                    "/out/part.pdf") Garbage Hb Hd).
Defined.

Lemma sample_codec_pages (d : PDFDocument string) :
  Pages d ≠ [] → ∃ d', load (save d) = Some d' ∧ Pages d' = Pages d.
Proof. intros _. exists d. split; reflexivity. Defined.

Lemma sample_codec_description (d : PDFDocument string) :
  ∃ d', load (save d) = Some d'
        ∧ Title d' = Title d ∧ Author d' = Author d
        ∧ Subject d' = Subject d ∧ Keywords d' = Keywords d.
Proof. exists d. repeat split; reflexivity. Defined.

Lemma mergePDFs_in_two_steps_witness :
  (∀ d : PDFDocument string, Pages d ≠ [] →
     ∃ d', load (save d) = Some d' ∧ Pages d' = Pages d)
  ∧ holds disk "/in/report.pdf" report
  ∧ holds disk "/in/annex.pdf" annex
  ∧ Pages report ≠ []
  ∧ "/out/scratch.pdf" ≠ "/in/annex.pdf"
  ∧ ∃ v1 fs1 v2 fs2 v3 fs3 (stepwise direct : PDFDocument string),
      mergePDFs 1 ["/in/report.pdf"; "/in/annex.pdf"] "/out/scratch.pdf" disk
      = (Ok v1, fs1)
      ∧ mergePDFs 2 ["/out/scratch.pdf"; "/in/annex.pdf"] "/out/all.pdf" fs1
        = (Ok v2, fs2)
      ∧ mergePDFs 3 ["/in/report.pdf"; "/in/annex.pdf"; "/in/annex.pdf"]
          "/out/all.pdf" disk
        = (Ok v3, fs3)
      ∧ holds fs2 "/out/all.pdf" stepwise
      ∧ holds fs3 "/out/all.pdf" direct
      ∧ Pages stepwise = Pages report ++ Pages annex ++ Pages annex
      ∧ Pages direct = Pages stepwise.
Proof.
  assert ("/out/scratch.pdf" ≠ "/in/annex.pdf") as Hne by discriminate.
  assert (Pages report ≠ []) as Hpages by discriminate.
  split; [exact sample_codec_pages|].
  split; [exact report_on_disk|]. split; [exact annex_on_disk|].
  split; [exact Hpages|]. split; [exact Hne|].
  exact (mergePDFs_in_two_steps 1 2 3 disk "/in/report.pdf" "/in/annex.pdf"
           "/in/annex.pdf" report annex annex "/out/scratch.pdf" "/out/all.pdf"
           sample_codec_pages report_on_disk annex_on_disk annex_on_disk
           Hpages Hne).
Defined.

Lemma extractPages_one_file_per_page_witness :
  holds disk "/in/report.pdf" report
  ∧ Forall (λ p, 1 ≤ p ≤ getPageCount report) [3; 1; 3]
  ∧ ∃ fs',
      extractPages "/in/report.pdf" [3; 1; 3] "/out" (Some "sheet") disk
      = (Ok (VObj [("success", VBool true);
                   ("files", VArr (map VStr
                      (map (pageFile "/out" (default "page" (Some "sheet")))
                         [3; 1; 3])))]),
         fs')
      ∧ (∀ p, p ∈ [3; 1; 3] →
           ∃ page, pageAt report (p - 1) = Some page
             ∧ fs' !! pageFile "/out" (default "page" (Some "sheet")) p
               = Some (save (addPage create page)))
      ∧ (∀ path,
           (∀ p, p ∈ [3; 1; 3] →
              path ≠ pageFile "/out" (default "page" (Some "sheet")) p) →
           fs' !! path = disk !! path).
Proof.
  assert (Forall (λ p, 1 ≤ p ≤ getPageCount report) [3; 1; 3]) as Hpages.
  { unfold getPageCount. simpl. repeat constructor; lia. }
  split; [exact report_on_disk|]. split; [exact Hpages|].
  exact (extractPages_one_file_per_page disk "/in/report.pdf" report "/out"
           (Some "sheet") [3; 1; 3] report_on_disk Hpages).
Defined.

Example extractPages_names_run :
  (extractPages "/in/report.pdf" [3; 1; 3] "/out" None disk).1
  = Ok (VObj [("success", VBool true);
              ("files", VArr [VStr "/out/page_3.pdf"; VStr "/out/page_1.pdf";
                              VStr "/out/page_3.pdf"])]).
Proof. vm_compute; reflexivity. Qed.

Lemma updatePDFMetadata_destination_witness :
  holds disk "/in/report.pdf" report
  ∧ ∃ savePath fs',
      updatePDFMetadata 7000 "/in/report.pdf"
        (mkMetadata (Some "Final report") None None None)
        (Some "/out/final.pdf") disk
      = (Ok (VObj [("success", VBool true); ("path", VStr savePath)]), fs')
      ∧ fs' !! savePath
        = Some (save (applyMetadata 7000 report
                        (mkMetadata (Some "Final report") None None None)))
      ∧ (∀ other, other ≠ savePath → fs' !! other = disk !! other)
      ∧ (Some "/out/final.pdf" = None → savePath = "/in/report.pdf")
      ∧ (Some "/out/final.pdf" = Some "" → savePath = "/in/report.pdf")
      ∧ (∀ p, Some "/out/final.pdf" = Some p → p ≠ "" → savePath = p).
Proof.
  split; [exact report_on_disk|].
  exact (updatePDFMetadata_destination 7000 disk "/in/report.pdf" report
           (mkMetadata (Some "Final report") None None None)
           (Some "/out/final.pdf") report_on_disk).
Defined.

Lemma updatePDFMetadata_stores_given_fields_witness :
  holds disk "/in/report.pdf" report
  ∧ ∃ savePath (written : PDFDocument string),
      updatePDFMetadata 7000 "/in/report.pdf"
        (mkMetadata (Some "Final report") None (Some "") (Some "final signed"))
        None disk
      = (Ok (VObj [("success", VBool true); ("path", VStr savePath)]),
         <[savePath := save written]> disk)
      ∧ (∀ t, title (mkMetadata (Some "Final report") None (Some "")
                       (Some "final signed")) = Some t →
           t ≠ "" → Title written = Some t)
      ∧ (∀ a, author (mkMetadata (Some "Final report") None (Some "")
                        (Some "final signed")) = Some a →
           a ≠ "" → Author written = Some a)
      ∧ (∀ s, subject (mkMetadata (Some "Final report") None (Some "")
                         (Some "final signed")) = Some s →
           s ≠ "" → Subject written = Some s)
      ∧ (∀ k, keywords (mkMetadata (Some "Final report") None (Some "")
                          (Some "final signed")) = Some k →
           k ≠ "" → Keywords written = Some k).
Proof.
  split; [exact report_on_disk|].
  exact (updatePDFMetadata_stores_given_fields 7000 disk "/in/report.pdf" report
           (mkMetadata (Some "Final report") None (Some "") (Some "final signed"))
           None report_on_disk).
Defined.

(** A source that is missing and a source that is not a PDF. *)
Lemma updatePDFMetadata_source_failures_witness :
  disk !! "/in/missing.pdf" = None
  ∧ disk !! "/in/notes.txt" = Some Garbage
  ∧ load (Page := string) Garbage = None
  ∧ updatePDFMetadata 7000 "/in/missing.pdf"
      (mkMetadata (Some "Final report") None None None) None disk
    = (Throw (Error ("File not found: " +:+ "/in/missing.pdf")), disk)
  ∧ updatePDFMetadata 7000 "/in/notes.txt"
      (mkMetadata (Some "Final report") None None None) (Some "/out/notes.pdf")
      disk
    = (Throw (Fault "Failed to parse PDF document"), disk).
Proof.
  assert (disk !! "/in/missing.pdf" = None) as Hmiss by reflexivity.
  assert (disk !! "/in/notes.txt" = Some Garbage) as Hb by reflexivity.
  assert (load (Page := string) Garbage = None) as Hd by reflexivity.
  split; [exact Hmiss|]. split; [exact Hb|]. split; [exact Hd|].
  split.
  - exact (proj1 (updatePDFMetadata_source_failures 7000 disk "/in/missing.pdf"
                    (mkMetadata (Some "Final report") None None None) None) Hmiss).
  - exact (proj2 (updatePDFMetadata_source_failures 7000 disk "/in/notes.txt"
                    (mkMetadata (Some "Final report") None None None)
                    (Some "/out/notes.pdf")) Garbage Hb Hd).
Defined.

Lemma updatePDFMetadata_idempotent_witness :
  (∀ d : PDFDocument string, ∃ d' : PDFDocument string,
      load (save d) = Some d'
      ∧ Title d' = Title d ∧ Author d' = Author d
      ∧ Subject d' = Subject d ∧ Keywords d' = Keywords d)
  ∧ holds disk "/in/report.pdf" report
  ∧ ∃ fs1 fs2 (first second : PDFDocument string),
      updatePDFMetadata 7000 "/in/report.pdf"
        (mkMetadata (Some "Final report") None None (Some "final")) None disk
      = (Ok (VObj [("success", VBool true); ("path", VStr "/in/report.pdf")]), fs1)
      ∧ updatePDFMetadata 8000 "/in/report.pdf"
          (mkMetadata (Some "Final report") None None (Some "final")) None fs1
        = (Ok (VObj [("success", VBool true); ("path", VStr "/in/report.pdf")]), fs2)
      ∧ holds fs1 "/in/report.pdf" first
      ∧ holds fs2 "/in/report.pdf" second
      ∧ Title second = Title first ∧ Author second = Author first
      ∧ Subject second = Subject first ∧ Keywords second = Keywords first.
Proof.
  split; [exact sample_codec_description|]. split; [exact report_on_disk|].
  exact (updatePDFMetadata_idempotent 7000 8000 disk "/in/report.pdf" report
           (mkMetadata (Some "Final report") None None (Some "final"))
           sample_codec_description report_on_disk).
Defined.

End EngineExtrasRuns.

(* ===================================================================== *)
(** * readPDF and getPDFInfo: guarantees                                  *)
(* ===================================================================== *)

Section ReadingExtras.
Context {Page bytes : Type} `{!Codec Page bytes} `{!TextExtractor bytes}.

Local Abbreviation FS := (gmap string bytes).

Lemma statSync_size_Some (fs : FS) path b :
  fs !! path = Some b → statSync_size path fs = (Ok (byteSize b), fs).
Proof. intros H. unfold statSync_size. by rewrite H. Qed.

(** [getPDFInfo], case by case. *)
Lemma getPDFInfo_outcome (fs : FS) filePath :
  getPDFInfo filePath fs
  = match fs !! filePath with
    | None => (Throw (Error ("File not found: " +:+ filePath)), fs)
    | Some b =>
        match pdfParse b with
        | None => (Throw (Fault "Invalid PDF structure"), fs)
        | Some data => (Ok (infoObject data (byteSize b) filePath), fs)
        end
    end.
Proof.
  unfold getPDFInfo, bind. destruct (fs !! filePath) as [b|] eqn:Hb.
  - rewrite (existsSync_Some fs filePath b Hb). simpl.
    rewrite (readFileSync_Some fs filePath b Hb). unfold pdfParse_await.
    destruct (pdfParse b) as [data|]; [|done]. unfold ret.
    by rewrite (statSync_size_Some fs filePath b Hb).
  - by rewrite (existsSync_None fs filePath Hb).
Qed.

(** [readPDF] without a page range, case by case. *)
Lemma readPDF_whole_outcome (fs : FS) filePath pageRange :
  pageRange = None ∨ pageRange = Some "" →
  readPDF (Page := Page) filePath pageRange fs
  = match fs !! filePath with
    | None => (Throw (Error ("File not found: " +:+ filePath)), fs)
    | Some b =>
        match pdfParse b with
        | None => (Throw (Fault "Invalid PDF structure"), fs)
        | Some data =>
            (Ok (VObj [("text", VStr (text data));
                       ("pages", VNum (numpages data));
                       ("info", infoObject data (byteSize b) filePath)]), fs)
        end
    end.
Proof.
  intros Hrange. unfold readPDF, bind.
  destruct (fs !! filePath) as [b|] eqn:Hb.
  - rewrite (existsSync_Some fs filePath b Hb). simpl.
    rewrite (readFileSync_Some fs filePath b Hb). unfold pdfParse_await.
    destruct (pdfParse b) as [data|]; [|done]. unfold ret.
    rewrite (statSync_size_Some fs filePath b Hb).
    by destruct Hrange as [-> | ->].
  - by rewrite (existsSync_None fs filePath Hb).
Qed.

(** [readPDF] with a page range, case by case. *)
Lemma readPDF_range_outcome (fs : FS) filePath range :
  range ≠ "" →
  readPDF (Page := Page) filePath (Some range) fs
  = match fs !! filePath with
    | None => (Throw (Error ("File not found: " +:+ filePath)), fs)
    | Some b =>
        match pdfParse b with
        | None => (Throw (Fault "Invalid PDF structure"), fs)
        | Some data =>
            match load (Page := Page) b with
            | None => (Throw (Fault "Failed to parse PDF document"), fs)
            | Some _ =>
                (Ok (VObj [("text", VStr ("[Extracted pages " +:+ range +:+ "]"
                                          +:+ String LF (text data)));
                           ("pages", VNum (numpages data));
                           ("info", infoObject data (byteSize b) filePath)]), fs)
            end
        end
    end.
Proof.
  intros Hrange%String.eqb_neq. unfold readPDF, bind.
  destruct (fs !! filePath) as [b|] eqn:Hb.
  - rewrite (existsSync_Some fs filePath b Hb). simpl.
    rewrite (readFileSync_Some fs filePath b Hb). unfold pdfParse_await.
    destruct (pdfParse b) as [data|]; [|done]. unfold ret.
    rewrite (statSync_size_Some fs filePath b Hb), Hrange.
    unfold PDFDocument_load, bind. by destruct (load b).
  - by rewrite (existsSync_None fs filePath Hb).
Qed.

(** X14. Reading never changes storage: whatever the path and the range,
    and whether the call succeeds or fails, [readPDF] and [getPDFInfo]
    leave every file as it was. *)
Theorem reading_leaves_storage (fs : FS) filePath pageRange :
  (readPDF (Page := Page) filePath pageRange fs).2 = fs
  ∧ (getPDFInfo filePath fs).2 = fs.
Proof.
  split.
  - destruct pageRange as [range|].
    + destruct (decide (range = "")) as [->|Hne].
      * rewrite readPDF_whole_outcome by auto.
        destruct (fs !! filePath) as [b|]; [|done].
        by destruct (pdfParse b).
      * rewrite readPDF_range_outcome by done.
        destruct (fs !! filePath) as [b|]; [|done].
        destruct (pdfParse b); [|done]. by destruct (load b).
    + rewrite readPDF_whole_outcome by auto.
      destruct (fs !! filePath) as [b|]; [|done]. by destruct (pdfParse b).
  - rewrite getPDFInfo_outcome.
    destruct (fs !! filePath) as [b|]; [|done]. by destruct (pdfParse b).
Qed.

(** X15. A page range given to [readPDF] is only echoed: for a file that
    both collaborators read and a range expression whose ranges all end
    below 2^53, the text returned is the text of the whole document
    behind the marker line that quotes the range, whatever the range
    says, and the page count and the info object are those of the call
    without a range. *)
Theorem readPDF_range_is_only_echoed
    (fs : FS) filePath b data (pdfDoc : PDFDocument Page) range :
  fs !! filePath = Some b →
  pdfParse b = Some data →
  load b = Some pdfDoc →
  range ≠ "" →
  finiteRange range →
  readPDF (Page := Page) filePath None fs
  = (Ok (VObj [("text", VStr (text data));
               ("pages", VNum (numpages data));
               ("info", infoObject data (byteSize b) filePath)]), fs)
  ∧ readPDF (Page := Page) filePath (Some range) fs
    = (Ok (VObj [("text", VStr ("[Extracted pages " +:+ range +:+ "]"
                                +:+ String LF (text data)));
                 ("pages", VNum (numpages data));
                 ("info", infoObject data (byteSize b) filePath)]), fs).
Proof.
  intros Hb Hdata Hload Hrange _. split.
  - rewrite readPDF_whole_outcome by auto. by rewrite Hb, Hdata.
  - rewrite readPDF_range_outcome by done. by rewrite Hb, Hdata, Hload.
Qed.

(** X16. [readPDF] without a range and [getPDFInfo] stand and fall
    together: they fail with the same error, and when they succeed the
    [info] of the one is the result of the other and its [pages] is the
    [pages] entry of that result. *)
Theorem readPDF_agrees_with_getPDFInfo (fs : FS) filePath :
  (∀ e out, getPDFInfo filePath fs = (Throw e, out) →
     readPDF (Page := Page) filePath None fs = (Throw e, out))
  ∧ (∀ information out, getPDFInfo filePath fs = (Ok information, out) →
       ∃ content,
         readPDF (Page := Page) filePath None fs
         = (Ok (VObj [("text", VStr content);
                      ("pages", getProp information "pages");
                      ("info", information)]), out)).
Proof.
  rewrite getPDFInfo_outcome, readPDF_whole_outcome by auto.
  destruct (fs !! filePath) as [b|].
  - destruct (pdfParse b) as [data|].
    + split; [discriminate|]. intros information out [= <- <-]. by eexists.
    + split; [by intros e out [= <- <-]|discriminate].
  - split; [by intros e out [= <- <-]|discriminate].
Qed.

End ReadingExtras.

Section ReadingRuns.
Import Sample SampleText.

Lemma readPDF_range_is_only_echoed_witness :
  disk !! "/in/report.pdf" = Some (PDF report)
  ∧ pdfParse (PDF report)
    = Some {| numpages := 10;
              info := VObj [("Title", VStr "Report"); ("Author", VStr "Ada")];
              text := "one two three" |}
  ∧ load (PDF report) = Some report
  ∧ "7-99,x" ≠ ""
  ∧ finiteRange "7-99,x"
  ∧ (readPDF (Page := string) "/in/report.pdf" None disk
     = (Ok (VObj [("text", VStr "one two three");
                  ("pages", VNum 10);
                  ("info", infoObject
                     {| numpages := 10;
                        info := VObj [("Title", VStr "Report");
                                      ("Author", VStr "Ada")];
                        text := "one two three" |}
                     (byteSize (PDF report)) "/in/report.pdf")]), disk)
     ∧ readPDF (Page := string) "/in/report.pdf" (Some "7-99,x") disk
       = (Ok (VObj [("text", VStr ("[Extracted pages " +:+ "7-99,x" +:+ "]"
                                   +:+ String LF "one two three"));
                    ("pages", VNum 10);
                    ("info", infoObject
                       {| numpages := 10;
                          info := VObj [("Title", VStr "Report");
                                        ("Author", VStr "Ada")];
                          text := "one two three" |}
                       (byteSize (PDF report)) "/in/report.pdf")]), disk)).
Proof.
  assert (disk !! "/in/report.pdf" = Some (PDF report)) as Hb by reflexivity.
  assert (pdfParse (PDF report)
          = Some {| numpages := 10;
                    info := VObj [("Title", VStr "Report"); ("Author", VStr "Ada")];
                    text := "one two three" |}) as Hdata by reflexivity.
  assert (load (PDF report) = Some report) as Hload by reflexivity.
  assert ("7-99,x" ≠ "") as Hne by discriminate.
  assert (finiteRange "7-99,x") as Hfin.
  { assert (JS.split "," "7-99,x" = ["7-99"; "x"]) as Hparts
      by (vm_compute; reflexivity).
    unfold finiteRange. rewrite Hparts.
    repeat constructor; intros e He; vm_compute in He;
      (discriminate He || (injection He as <-; lia)). }
  split; [exact Hb|]. split; [exact Hdata|]. split; [exact Hload|].
  split; [exact Hne|]. split; [exact Hfin|].
  exact (readPDF_range_is_only_echoed disk "/in/report.pdf" (PDF report) _ report
           "7-99,x" Hb Hdata Hload Hne Hfin).
Defined.

End ReadingRuns.

(* ===================================================================== *)
(** * wrapText: guarantees                                                *)
(* ===================================================================== *)

Section WrapTextExtras.
Import JSFacts SplitFacts.
#[local] Arguments String.append !s1 s2 : simpl nomatch.
Variable tooWide : string → bool.

Lemma nonEmpty_false s : nonEmpty s = false → s = "".
Proof. unfold nonEmpty. intros H%negb_false_iff. by apply String.eqb_eq. Qed.

Lemma wordsOf_empty : wordsOf "" = [].
Proof. reflexivity. Qed.

Lemma wordsOf_joined a b : wordsOf (a +:+ " " +:+ b) = wordsOf a ++ wordsOf b.
Proof.
  unfold wordsOf. change (a +:+ " " +:+ b) with (a +:+ String " " b).
  by rewrite split_app, filter_app.
Qed.

(** The words of the pieces of a paragraph are its words. *)
Lemma wordsOf_pieces ws :
  Forall (λ w, JS.includes " " w = false) ws →
  concat (map wordsOf ws) = filter (λ w, w ≠ EmptyString) ws.
Proof.
  induction 1 as [|w ws Hw _ IH]; [done|]. simpl. rewrite IH, filter_cons.
  unfold wordsOf at 1. rewrite split_none by done.
  rewrite filter_cons, filter_nil. by destruct (decide (w ≠ "")).
Qed.

(** One step of the word loop keeps the words seen so far, in order. *)
Lemma wrapWord_words lines currentLine word :
  let '(lines', currentLine') := wrapWord tooWide (lines, currentLine) word in
  concat (map wordsOf lines') ++ wordsOf currentLine'
  = concat (map wordsOf lines) ++ wordsOf currentLine ++ wordsOf word.
Proof.
  unfold wrapWord. destruct (nonEmpty currentLine) eqn:Hcur.
  - destruct (tooWide _); cbn [andb]; cbv beta iota zeta.
    + rewrite map_app, concat_app. cbn [map concat].
      by rewrite app_nil_r, <- app_assoc.
    + by rewrite wordsOf_joined.
  - apply nonEmpty_false in Hcur as ->. rewrite andb_false_r. done.
Qed.

Lemma foldl_wrapWord_words words lines currentLine :
  let '(lines', currentLine') :=
    foldl (wrapWord tooWide) (lines, currentLine) words in
  concat (map wordsOf lines') ++ wordsOf currentLine'
  = concat (map wordsOf lines) ++ wordsOf currentLine
    ++ concat (map wordsOf words).
Proof.
  revert lines currentLine.
  induction words as [|w words IH]; intros lines currentLine;
    cbn [foldl map concat].
  - by rewrite !app_nil_r.
  - pose proof (wrapWord_words lines currentLine w) as Hstep.
    destruct (wrapWord tooWide (lines, currentLine) w) as [lines1 cur1].
    specialize (IH lines1 cur1).
    destruct (foldl (wrapWord tooWide) (lines1, cur1) words) as [lines2 cur2].
    cbv beta iota zeta in IH, Hstep |- *.
    rewrite IH, app_assoc, Hstep. by rewrite <- !app_assoc.
Qed.

Lemma wrapParagraph_words lines paragraph :
  concat (map wordsOf (wrapParagraph tooWide lines paragraph))
  = concat (map wordsOf lines)
    ++ (if decide (JS.trim paragraph ≠ "") then wordsOf paragraph else []).
Proof.
  unfold wrapParagraph. destruct (String.eqb_spec (JS.trim paragraph) "") as [Hb|Hb].
  - rewrite decide_False by (by intros ?).
    rewrite map_app, concat_app. simpl. by rewrite app_nil_r.
  - rewrite decide_True by done.
    pose proof (foldl_wrapWord_words (JS.split " " paragraph) lines "") as Hfold.
    destruct (foldl (wrapWord tooWide) (lines, "") (JS.split " " paragraph))
      as [lines' cur].
    cbv beta iota zeta in Hfold.
    rewrite wordsOf_empty, (wordsOf_pieces (JS.split " " paragraph)) in Hfold
      by apply split_pieces_exclude.
    cbn [app] in Hfold. fold (wordsOf paragraph) in Hfold. rewrite <- Hfold.
    destruct (nonEmpty cur) eqn:Hcur.
    + rewrite map_app, concat_app. simpl. by rewrite app_nil_r.
    + apply nonEmpty_false in Hcur as ->. by rewrite wordsOf_empty, app_nil_r.
Qed.

Lemma foldl_wrapParagraph_words paragraphs lines :
  concat (map wordsOf (foldl (wrapParagraph tooWide) lines paragraphs))
  = concat (map wordsOf lines)
    ++ concat (map wordsOf (filter (λ p, JS.trim p ≠ EmptyString) paragraphs)).
Proof.
  revert lines. induction paragraphs as [|p ps IH]; intros lines; simpl.
  - by rewrite app_nil_r.
  - rewrite IH, wrapParagraph_words, filter_cons.
    destruct (decide (JS.trim p ≠ "")); simpl.
    + by rewrite <- app_assoc.
    + by rewrite app_nil_r.
Qed.

(** X17. Wrapping neither loses, nor repeats, nor reorders a word: the
    words of the lines returned, read line after line, are the words of
    the paragraphs that are not blank, read paragraph after paragraph,
    whatever the width test. *)
Theorem wrapText_keeps_words text :
  concat (map wordsOf (wrapText tooWide text))
  = concat (map wordsOf
              (filter (λ p, JS.trim p ≠ EmptyString) (JS.split LF text))).
Proof. unfold wrapText. by rewrite foldl_wrapParagraph_words. Qed.

(** A line that fits, or a line that is one unbreakable word. *)
Local Abbreviation settled :=
  (λ line : string, tooWide line = false ∨ JS.includes " " line = false).

Lemma wrapWord_settled lines currentLine word :
  Forall settled lines → settled currentLine →
  JS.includes " " word = false →
  Forall settled (wrapWord tooWide (lines, currentLine) word).1
  ∧ settled (wrapWord tooWide (lines, currentLine) word).2.
Proof.
  intros Hlines Hcur Hword. unfold wrapWord.
  destruct (nonEmpty currentLine) eqn:Hne.
  - destruct (tooWide (currentLine +:+ " " +:+ word)) eqn:Hwide; simpl.
    + split; [|by right]. apply Forall_app. split; [done|by constructor].
    + split; [done|by left].
  - rewrite andb_false_r. simpl. split; [done|by right].
Qed.

Lemma foldl_wrapWord_settled words lines currentLine :
  Forall settled lines → settled currentLine →
  Forall (λ w, JS.includes " " w = false) words →
  Forall settled (foldl (wrapWord tooWide) (lines, currentLine) words).1
  ∧ settled (foldl (wrapWord tooWide) (lines, currentLine) words).2.
Proof.
  intros Hlines Hcur Hwords. revert lines currentLine Hlines Hcur.
  induction Hwords as [|w words Hw _ IH]; intros lines currentLine Hlines Hcur;
    cbn [foldl]; [done|].
  destruct (wrapWord_settled lines currentLine w Hlines Hcur Hw) as [H1 H2].
  destruct (wrapWord tooWide (lines, currentLine) w) as [lines1 cur1].
  by apply IH.
Qed.

Lemma wrapParagraph_settled lines paragraph :
  Forall settled lines → Forall settled (wrapParagraph tooWide lines paragraph).
Proof.
  intros Hlines. unfold wrapParagraph.
  destruct (String.eqb (JS.trim paragraph) "").
  - apply Forall_app. split; [done|]. constructor; [by right|done].
  - destruct (foldl_wrapWord_settled (JS.split " " paragraph) lines ""
                Hlines (or_intror eq_refl) (split_pieces_exclude " " paragraph))
      as [H1 H2].
    destruct (foldl (wrapWord tooWide) (lines, "") (JS.split " " paragraph))
      as [lines' cur]. simpl in *.
    destruct (nonEmpty cur); [|done].
    apply Forall_app. split; [done|by constructor].
Qed.

(** X18. Every line returned either passes the width test or contains
    no space: a line is wider than allowed only when it consists of a
    single word that cannot be broken. *)
Theorem wrapText_lines_fit_or_single_word text :
  Forall (λ line, tooWide line = false ∨ JS.includes " " line = false)
    (wrapText tooWide text).
Proof.
  unfold wrapText.
  assert (∀ paragraphs lines, Forall settled lines →
            Forall settled (foldl (wrapParagraph tooWide) lines paragraphs)) as H.
  { induction paragraphs as [|p ps IH]; intros lines Hlines; simpl; [done|].
    by apply IH, wrapParagraph_settled. }
  by apply H.
Qed.


(** The word loop only appends to the lines. *)
Lemma foldl_wrapWord_extends words lines currentLine :
  ∃ added,
    (foldl (wrapWord tooWide) (lines, currentLine) words).1 = lines ++ added.
Proof.
  revert lines currentLine.
  induction words as [|w words IH]; intros lines currentLine; cbn [foldl].
  - exists []. by rewrite app_nil_r.
  - unfold wrapWord at 2.
    destruct (tooWide _ && nonEmpty currentLine).
    + destruct (IH (lines ++ [currentLine]) w) as [added ->].
      exists (currentLine :: added). by rewrite <- app_assoc.
    + apply IH.
Qed.

(** A paragraph without words is blank. *)
Lemma wordsOf_nil_blank paragraph : wordsOf paragraph = [] → JS.trim paragraph = "".
Proof.
  intros Hwords.
  assert (Grammar.blank paragraph) as Hblank.
  { unfold Grammar.blank, wordsOf in *.
    induction paragraph as [|c p IH]; [done|]. simpl in *.
    destruct (Ascii.eqb_spec c " ") as [->|Hc].
    - rewrite filter_cons in Hwords.
      destruct (decide ("" ≠ "")) as [?|_]; [done|]. auto.
    - destruct (split_cons " " p) as (h & t & Hsplit). rewrite Hsplit in Hwords.
      rewrite filter_cons in Hwords.
      destruct (decide (String c h ≠ "")) as [_|Hn]; [done|].
      exfalso. by apply Hn. }
  unfold JS.trim.
  pose proof (trimStart_blank paragraph "" Hblank) as Hstart.
  rewrite append_nil_r in Hstart. by rewrite Hstart.
Qed.

Lemma wrapParagraph_extends lines paragraph :
  ∃ line added, wrapParagraph tooWide lines paragraph = lines ++ line :: added.
Proof.
  pose proof (wrapParagraph_words lines paragraph) as Hwords.
  unfold wrapParagraph in *.
  destruct (String.eqb_spec (JS.trim paragraph) "") as [Hb|Hb]; [by eexists _, _|].
  rewrite decide_True in Hwords by done.
  destruct (foldl_wrapWord_extends (JS.split " " paragraph) lines "")
    as [added Hadded].
  destruct (foldl (wrapWord tooWide) (lines, "") (JS.split " " paragraph))
    as [lines' cur]. simpl in Hadded. subst lines'.
  destruct (nonEmpty cur) eqn:Hcur.
  - rewrite <- app_assoc. destruct added as [|l added]; by eexists _, _.
  - destruct added as [|l added]; [|by eexists _, _].
    exfalso. apply Hb, wordsOf_nil_blank.
    rewrite app_nil_r in Hwords.
    rewrite <- (app_nil_r (concat (map wordsOf lines))) in Hwords at 1.
    by apply app_inv_head in Hwords.
Qed.

(** What one paragraph adds to the lines: at least one line; the empty
    line alone when the paragraph is blank, and lines that hold its words
    otherwise. *)
Lemma wrapParagraph_group lines paragraph :
  ∃ group,
    wrapParagraph tooWide lines paragraph = lines ++ group
    ∧ group ≠ []
    ∧ (JS.trim paragraph = "" → group = [""])
    ∧ (JS.trim paragraph ≠ "" → concat (map wordsOf group) = wordsOf paragraph).
Proof.
  destruct (wrapParagraph_extends lines paragraph) as (line & added & Heq).
  exists (line :: added). split; [done|]. split; [done|]. split.
  - intros Hblank. unfold wrapParagraph in Heq.
    apply String.eqb_eq in Hblank. rewrite Hblank in Heq.
    by apply app_inv_head in Heq.
  - intros Hwords. pose proof (wrapParagraph_words lines paragraph) as Hkept.
    rewrite decide_True in Hkept by done.
    rewrite Heq, map_app, concat_app in Hkept. by apply app_inv_head in Hkept.
Qed.

(** X19. No paragraph disappears: the lines returned are, paragraph after
    paragraph of the text split at line feeds, the lines of that
    paragraph, and every paragraph has at least one: a blank paragraph
    exactly the empty line, any other paragraph lines that hold its
    words in order. So there are at least as many lines as paragraphs. *)
Theorem wrapText_at_least_one_line_per_paragraph text :
  ∃ groups : list (list string),
    wrapText tooWide text = concat groups
    ∧ Forall2 (λ paragraph group,
         group ≠ []
         ∧ (JS.trim paragraph = "" → group = [""])
         ∧ (JS.trim paragraph ≠ "" →
            concat (map wordsOf group) = wordsOf paragraph))
        (JS.split LF text) groups
    ∧ (length (JS.split LF text) ≤ length (wrapText tooWide text))%nat.
Proof.
  unfold wrapText.
  assert (∀ paragraphs lines,
            ∃ groups : list (list string),
              foldl (wrapParagraph tooWide) lines paragraphs
              = lines ++ concat groups
              ∧ Forall2 (λ paragraph group,
                   group ≠ []
                   ∧ (JS.trim paragraph = "" → group = [""])
                   ∧ (JS.trim paragraph ≠ "" →
                      concat (map wordsOf group) = wordsOf paragraph))
                  paragraphs groups) as H.
  { induction paragraphs as [|p ps IH]; intros lines; cbn [foldl].
    - exists []. split; [by rewrite app_nil_r|constructor].
    - destruct (wrapParagraph_group lines p) as (group & Heq & Hgroup).
      destruct (IH (wrapParagraph tooWide lines p)) as (groups & Hrest & Hgroups).
      exists (group :: groups). split; [|by constructor].
      rewrite Hrest, Heq. simpl. by rewrite <- app_assoc. }
  destruct (H (JS.split LF text) []) as (groups & Heq & Hgroups).
  exists groups. split; [done|]. split; [done|].
  rewrite Heq. simpl. clear Heq.
  induction Hgroups as [|p group ps groups (Hne & _) _ IH]; [done|].
  simpl. rewrite length_app. destruct group; [done|]. simpl. lia.
Qed.

End WrapTextExtras.

Example wrapText_run :
  wrapText SampleText.tenColumns
    ("the quick brown fox" +:+ String LF ("  " +:+ String LF " an extraordinarily  lazy dog "))
  = ["the quick"; "brown fox"; ""; "an"; "extraordinarily"; "lazy dog "].
Proof. vm_compute; reflexivity. Qed.

(* ===================================================================== *)
(** * The request handler: further guarantees                             *)
(* ===================================================================== *)

Section HandlerExtras.
Import Server.

(** X20. The handler reads ten property names and nothing else of the
    argument record: two records that are both present and agree on
    [filePath], [pageRange], [content], [outputPath], [options],
    [filePaths], [metadata], [pages], [outputDir] and [prefix] get the
    same answer and leave the same state, whatever else they carry and
    whatever the engine is. *)
Theorem callTool_reads_declared_properties_only
    {S : Type} (pdfTools : PDFTools S) toolName args1 args2 s :
  toBoolean args1 = toBoolean args2 →
  (∀ k, In k ["filePath"; "pageRange"; "content"; "outputPath"; "options";
              "filePaths"; "metadata"; "pages"; "outputDir"; "prefix"] →
        getProp args1 k = getProp args2 k) →
  callTool pdfTools {| name := toolName; arguments := args1 |} s
  = callTool pdfTools {| name := toolName; arguments := args2 |} s.
Proof.
  intros Hbool Hprops. rewrite !callTool_outcome. simpl. rewrite Hbool.
  assert (engineCall pdfTools toolName args1 = engineCall pdfTools toolName args2)
    as ->; [|done].
  unfold engineCall.
  rewrite !(Hprops "filePath"), !(Hprops "pageRange"), !(Hprops "content"),
          !(Hprops "outputPath"), !(Hprops "options"), !(Hprops "filePaths"),
          !(Hprops "metadata"), !(Hprops "pages"), !(Hprops "outputDir"),
          !(Hprops "prefix") by (simpl; auto 12).
  done.
Qed.

Lemma callTool_reads_declared_properties_only_witness :
  toBoolean (VObj [("filePath", VStr "/in/report.pdf")])
  = toBoolean (VObj [("verbose", VBool true); ("filePath", VStr "/in/report.pdf");
                     ("pagerange", VStr "1-2")])
  ∧ (∀ k, In k ["filePath"; "pageRange"; "content"; "outputPath"; "options";
                "filePaths"; "metadata"; "pages"; "outputDir"; "prefix"] →
          getProp (VObj [("filePath", VStr "/in/report.pdf")]) k
          = getProp (VObj [("verbose", VBool true);
                           ("filePath", VStr "/in/report.pdf");
                           ("pagerange", VStr "1-2")]) k)
  ∧ callTool recorder
      {| name := "read_pdf";
         arguments := VObj [("filePath", VStr "/in/report.pdf")] |} []
    = callTool recorder
        {| name := "read_pdf";
           arguments := VObj [("verbose", VBool true);
                              ("filePath", VStr "/in/report.pdf");
                              ("pagerange", VStr "1-2")] |} [].
Proof.
  assert (∀ k, In k ["filePath"; "pageRange"; "content"; "outputPath"; "options";
                     "filePaths"; "metadata"; "pages"; "outputDir"; "prefix"] →
               getProp (VObj [("filePath", VStr "/in/report.pdf")]) k
               = getProp (VObj [("verbose", VBool true);
                                ("filePath", VStr "/in/report.pdf");
                                ("pagerange", VStr "1-2")]) k) as Hprops.
  { intros k Hk. simpl in Hk. decompose [or] Hk; subst; reflexivity || contradiction. }
  split; [reflexivity|]. split; [exact Hprops|].
  exact (callTool_reads_declared_properties_only recorder "read_pdf"
           (VObj [("filePath", VStr "/in/report.pdf")])
           (VObj [("verbose", VBool true); ("filePath", VStr "/in/report.pdf");
                  ("pagerange", VStr "1-2")])
           [] eq_refl Hprops).
Defined.

(** X21. Every call reaches the engine at most once, and exactly when it
    carries an argument record and names a tool of the catalogue: on the
    recording engine the log grows by one entry in that case and stays as
    it was in every other. *)
Theorem callTool_reaches_engine_once params log :
  ∃ calls,
    (callTool recorder params log).2 = log ++ calls
    ∧ (length calls ≤ 1)%nat
    ∧ (calls ≠ [] ↔
       toBoolean (arguments params) = true ∧ In (name params) (map fst catalogue)).
Proof.
  rewrite callTool_outcome.
  destruct (toBoolean (arguments params)) eqn:Hargs; simpl.
  2: { exists []. rewrite app_nil_r.
       repeat split; simpl; try done; try lia; try by intros [? _]. }
  pose proof (engineCall_known recorder (name params) (arguments params)) as Hknown.
  destruct (engineCall recorder (name params) (arguments params)) as [call|] eqn:Hcall.
  - assert (∃ method passed, call = recorded method passed) as (m & a & ->).
    { unfold engineCall in Hcall.
      repeat match type of Hcall with
             | (if ?c then _ else _) = _ =>
                 destruct c; [injection Hcall as <-; by eexists _, _|]
             end.
      discriminate Hcall. }
    unfold recorded. simpl. exists [(m, a)]. repeat split; simpl; try done.
    apply Hknown. by eexists.
  - exists []. rewrite app_nil_r. repeat split; simpl; try done; try lia.
    all: intros [_ Hin]; apply Hknown in Hin as [? ?]; discriminate.
Qed.

(** X22. Every field that the catalogue declares as required for a tool
    is handed to the engine: in a call of that tool with an argument
    record, the value found under the field name (or [undefined] when the
    record lacks it) is among the arguments that the engine method
    receives. *)
Theorem callTool_passes_required_fields toolName required field args :
  In (toolName, required) catalogue →
  In field required →
  toBoolean args = true →
  ∃ method passed,
    (callTool recorder {| name := toolName; arguments := args |} []).2
    = [(method, passed)]
    ∧ In (getProp args field) passed.
Proof.
  intros Htool Hfield Hargs. rewrite callTool_outcome. simpl. rewrite Hargs. simpl.
  unfold catalogue in Htool. simpl in Htool.
  decompose [or] Htool; try contradiction;
    match goal with H : (_, _) = (_, _) |- _ => injection H as <- <- end;
    simpl in Hfield; decompose [or] Hfield; try contradiction; subst;
    eexists _, _; (split; [reflexivity|]); simpl; auto 6.
Qed.

Lemma callTool_passes_required_fields_witness :
  In ("split_pdf", ["filePath"; "pageRange"; "outputPath"]) catalogue
  ∧ In "pageRange" ["filePath"; "pageRange"; "outputPath"]
  ∧ toBoolean (VObj [("pageRange", VStr "1-3")]) = true
  ∧ ∃ method passed,
      (callTool recorder
         {| name := "split_pdf";
            arguments := VObj [("pageRange", VStr "1-3")] |} []).2
      = [(method, passed)]
      ∧ In (getProp (VObj [("pageRange", VStr "1-3")]) "pageRange") passed.
Proof.
  assert (In ("split_pdf", ["filePath"; "pageRange"; "outputPath"]) catalogue)
    as Htool by (unfold catalogue; simpl; auto 8).
  assert (In "pageRange" ["filePath"; "pageRange"; "outputPath"]) as Hfield
    by (simpl; auto).
  split; [exact Htool|]. split; [exact Hfield|]. split; [reflexivity|].
  exact (callTool_passes_required_fields "split_pdf" _ "pageRange"
           (VObj [("pageRange", VStr "1-3")]) Htool Hfield eq_refl).
Defined.


End HandlerExtras.
